(** * SecretsManagerRDSMariaDBRotationMultiUser: the rotation Lambda

    A shallow embedding of [lambda_function.py] (the multi-user rotation
    scheme for an RDS MariaDB credential) and the properties of its
    rotation protocol.

    Conventions of the embedding:
    - Python [str] is [string], one [ascii] per character; [len] is
      [String.length]; [+] is [+:+].
    - A secret dictionary (the parsed [SecretString]) is a
      [gmap string jval].
    - The Secrets Manager store is explicit state; the database, the RDS
      inventory and the password generator are oracles that see the
      history of calls made so far. Every call to a collaborator is
      appended to a trace.
    - Exceptions are the [Raise] results of a state-and-error monad; the
      state reached before a raise is kept, as in Python.
    - [logger] calls are not modelled. *)

From Stdlib Require Import ZArith Ascii.
From stdpp Require Import base option list gmap strings pretty.

Local Open Scope string_scope.
Local Open Scope list_scope.
Local Open Scope nat_scope.

(** ** Python string primitives *)

Module PyStr.

(** [s[:-k]] for [k > 0]: all but the last [k] characters (the empty
    string when [len(s) <= k]). *)
Definition slice_to_neg (k : nat) (s : string) : string :=
  String.substring 0 (String.length s - k) s.

(** [s.endswith(suf)]. *)
Definition endswith (s suf : string) : bool :=
  (String.length suf <=? String.length s)%nat
  && String.eqb
       (String.substring (String.length s - String.length suf)
          (String.length suf) s)
       suf.

(** [s.split(sep)[0]] for a non-empty separator: the part of [s] before
    the first occurrence of [sep], all of [s] when there is none. *)
Fixpoint split_0 (sep s : string) : string :=
  match s with
  | EmptyString => EmptyString
  | String c r =>
      if String.prefix sep s then EmptyString else String c (split_0 sep r)
  end.

(** [s.replace(c, new)] for a one-character pattern [c]. *)
Fixpoint replace_char (c : ascii) (new s : string) : string :=
  match s with
  | EmptyString => EmptyString
  | String a r =>
      (if Ascii.eqb a c then new else String a EmptyString)
      +:+ replace_char c new r
  end.

(** [c in s] for a character [c]. *)
Fixpoint contains_char (c : ascii) (s : string) : bool :=
  match s with
  | EmptyString => false
  | String a r => Ascii.eqb a c || contains_char c r
  end.

End PyStr.

(** ** Exceptions and results *)

Inductive exn : Type :=
  | ValueError (msg : string)
  | KeyError (msg : string)
  | AttributeError
  | IndexError
  | ResourceNotFoundException
  | OperationalError
  | ClientError (msg : string).

Inductive result (A : Type) : Type :=
  | Ok (a : A)
  | Raise (e : exn).
Arguments Ok {A} a.
Arguments Raise {A} e.

(** ** The alternate-username resolver *)

Definition clone_suffix : string := "_clone".

Definition get_alt_username (current_username : string) : result string :=
  if PyStr.endswith current_username clone_suffix then
    Ok (PyStr.slice_to_neg (String.length clone_suffix) current_username)
  else
    let new_username := current_username +:+ clone_suffix in
    if (80 <? String.length new_username)%nat then
      Raise (ValueError "Unable to clone user, username length with _clone appended would exceed 80 characters")
    else Ok new_username.

(** ** Secret dictionaries *)

(** A JSON value of a secret: secrets hold strings and integers. *)
Inductive jval : Type :=
  | JStr (s : string)
  | JInt (z : Z).

Global Instance jval_eq_dec : EqDecision jval.
Proof. solve_decision. Defined.

(** [str(v)], as an f-string formats it. *)
Definition py_str (v : jval) : string :=
  match v with
  | JStr s => s
  | JInt z => pretty z
  end.

(** The [SecretString] of a version. It is kept in parsed form:
    [json.loads(json.dumps(d))] is [d] for a dictionary of strings and
    integers, and [json.loads] raises a [ValueError] on anything that is
    not JSON. *)
Inductive plaintext : Type :=
  | NotJson
  | JsonObject (d : gmap string jval).

Definition json_loads (p : plaintext) : result (gmap string jval) :=
  match p with
  | NotJson => Raise (ValueError "JSONDecodeError")
  | JsonObject d => Ok d
  end.

Definition json_dumps (d : gmap string jval) : plaintext := JsonObject d.

(** ** The collaborators: store, database, inventory *)

(** One secret of the store: the rotation flag, the staging labels of its
    versions (a Python dict in iteration order) and the payloads. *)
Record Secret : Type := {
  RotationEnabled : option bool;
  VersionIdsToStages : list (string * list string);
  SecretStrings : gmap string plaintext;
}.

(** What [describe_secret] returns. *)
Record Metadata : Type := {
  md_RotationEnabled : option bool;
  md_VersionIdsToStages : list (string * list string);
}.

(** The arguments of [pymysql.connect]. *)
Record ConnectArgs : Type := {
  ca_host : jval;
  ca_user : jval;
  ca_passwd : jval;
  ca_port : Z;
  ca_db : option jval;
  ca_connect_timeout : Z;
}.

(** An instance description of the RDS inventory. *)
Record DBInstance : Type := {
  ReadReplicaSourceDBInstanceIdentifier : option string;
}.

(** Calls to the collaborators, in the order they are made. A connection
    is named by the position of its [Connect] call in the trace. *)
Inductive event : Type :=
  | DescribeSecret (arn : string)
  | GetSecretValue (arn : string) (version : option string) (stage : string)
  | GetRandomPassword (exclude : string)
  | PutSecretValue (arn token : string) (secret_string : plaintext)
      (stages : list string)
  | UpdateSecretVersionStage (arn stage move_to : string)
      (remove_from : option string)
  | Connect (args : ConnectArgs)
  | Execute (conn : nat) (sql : string) (args : list jval)
  | Fetchall (conn : nat)
  | Commit (conn : nat)
  | Close (conn : nat)
  | DescribeDBInstances (id : string).

Definition is_store_write (e : event) : bool :=
  match e with
  | PutSecretValue _ _ _ _ | UpdateSecretVersionStage _ _ _ _ => true
  | _ => false
  end.

Definition is_password_generation (e : event) : bool :=
  match e with GetRandomPassword _ => true | _ => false end.

(** Statements sent to the database, and commits. *)
Definition is_db_write (e : event) : bool :=
  match e with
  | Execute _ _ _ | Commit _ => true
  | _ => false
  end.

Definition is_commit (c : nat) (e : event) : bool :=
  match e with Commit c' => Nat.eqb c c' | _ => false end.

Definition is_close (c : nat) (e : event) : bool :=
  match e with Close c' => Nat.eqb c c' | _ => false end.

Definition is_execute (e : event) : bool :=
  match e with Execute _ _ _ => true | _ => false end.

(** The process environment and the collaborators this program does not
    own. Each oracle sees the calls made before the one it answers. *)
Record Env : Type := {
  environ : gmap string string;
  (** [int(s)] on a [str] *)
  parse_int : string → option Z;
  random_password : list event → string → result string;
  (** [pymysql.connect]: [Raise OperationalError] is a failed login *)
  db_connect : list event → ConnectArgs → result unit;
  db_execute : list event → nat → string → list jval → result unit;
  db_fetchall : list event → nat → list (list string);
  db_commit : list event → nat → result unit;
  rds_describe_db_instances : list event → string → result (list DBInstance);
}.

Record World : Type := {
  secrets : gmap string Secret;
  trace : list event;
}.

(** ** The monad of the handlers: state and exceptions *)

Definition M (A : Type) : Type := World → result A * World.

Global Instance M_ret : MRet M := λ A a w, (Ok a, w).

Global Instance M_bind : MBind M := λ A B k m w,
  match m w with
  | (Ok a, w') => k a w'
  | (Raise e, w') => (Raise e, w')
  end.

Definition raise {A} (e : exn) : M A := λ w, (Raise e, w).

Definition lift {A} (r : result A) : M A := λ w, (r, w).

Definition history : M (list event) := λ w, (Ok (trace w), w).

Definition emit (e : event) : M unit := λ w,
  (Ok tt, {| secrets := secrets w; trace := trace w ++ [e] |}).

(** The world after further calls that leave the store as it is. *)
Definition after (w : World) (evs : list event) : World :=
  {| secrets := secrets w; trace := trace w ++ evs |}.

Definition read_store : M (gmap string Secret) := λ w, (Ok (secrets w), w).

Definition write_store (s : gmap string Secret) : M unit := λ w,
  (Ok tt, {| secrets := s; trace := trace w |}).

(** [try: x = m; <k x>  except <handler e>: ...]: an exception of [m] the
    handler takes is replaced by the handler's body, any other one
    propagates; [k] runs outside the protected block. *)
Definition try_except {A B} (m : M A) (handler : exn → option (M B))
    (k : A → M B) : M B := λ w,
  match m w with
  | (Ok a, w') => k a w'
  | (Raise e, w') =>
      match handler e with
      | Some h => h w'
      | None => (Raise e, w')
      end
  end.

(** [try: m finally: f]. *)
Definition try_finally {A} (m : M A) (f : M unit) : M A := λ w,
  match m w with
  | (r, w1) =>
      match f w1 with
      | (Ok _, w2) => (r, w2)
      | (Raise e, w2) => (Raise e, w2)
      end
  end.

(** [for x in l: body x]. *)
Fixpoint for_each {A} (l : list A) (body : A → M unit) : M unit :=
  match l with
  | [] => mret tt
  | x :: rest => body x ;; for_each rest body
  end.

(** ** Python dictionaries *)

(** [d[k]] on a secret dictionary. *)
Definition getitem (d : gmap string jval) (k : string) : M jval :=
  match d !! k with
  | Some v => mret v
  | None => raise (KeyError k)
  end.

(** A [str] method called on a value: an [int] has no such attribute. *)
Definition as_str (v : jval) : M string :=
  match v with
  | JStr s => mret s
  | JInt _ => raise AttributeError
  end.

(** [d[k]] on a dict kept in iteration order. *)
Fixpoint dict_get {V} (k : string) (d : list (string * V)) : option V :=
  match d with
  | [] => None
  | (k', v) :: rest => if decide (k' = k) then Some v else dict_get k rest
  end.

(** [d[k] = f(d.get(k, default))] in place, appending a new key. *)
Fixpoint dict_upd {V} (k : string) (f : V → V) (default : V)
    (d : list (string * V)) : list (string * V) :=
  match d with
  | [] => [(k, f default)]
  | (k', v) :: rest =>
      if decide (k' = k) then (k', f v) :: rest
      else (k', v) :: dict_upd k f default rest
  end.

(** [x in l] for a list of labels. *)
Definition contains (x : string) (l : list string) : bool :=
  bool_decide (x ∈ l).

(** Truthiness of an optional [str]: [None] and [''] are false. *)
Definition truthy (token : option string) : bool :=
  match token with
  | Some t => negb (String.eqb t "")
  | None => false
  end.

(** ** The Secrets Manager store *)

Definition add_label (stage : string) (l : list string) : list string :=
  if contains stage l then l else l ++ [stage].

Definition remove_label (stage : string) (l : list string) : list string :=
  filter (λ x, x ≠ stage) l.

(** The first version, in iteration order, that carries [stage]. *)
Fixpoint find_stage (stage : string) (vs : list (string * list string))
    : option string :=
  match vs with
  | [] => None
  | (v, l) :: rest => if contains stage l then Some v else find_stage stage rest
  end.

(** The number of versions that carry [stage]. *)
Definition count_stage (stage : string) (vs : list (string * list string))
    : nat :=
  length (filter (λ v, stage ∈ v.2) vs).

Definition relabel (f : string → list string → list string)
    (vs : list (string * list string)) : list (string * list string) :=
  map (λ v, (v.1, f v.1 v.2)) vs.

(** Modelled from the spec: the label move of the external Secret Store
    Client ("move the CURRENT label atomically from one version to
    another", and "the prior CURRENT version becomes PREVIOUS"). The label
    leaves [from] and is attached to [to]; a moved AWSCURRENT leaves
    AWSPREVIOUS on [from] alone. *)
Definition move_label (stage to from : string)
    (vs : list (string * list string)) : list (string * list string) :=
  let moved :=
    relabel (λ v l,
      let l' := if decide (v = from) then remove_label stage l else l in
      if decide (v = to) then add_label stage l' else l') vs in
  if decide (stage = "AWSCURRENT") then
    relabel (λ v l,
      if decide (v = from) then add_label "AWSPREVIOUS" l
      else remove_label "AWSPREVIOUS" l) moved
  else moved.

(** Modelled from the spec: [describe_secret] of the external Secret Store
    Client ("describe stage-label mapping for a secret"). *)
Definition describe_secret (arn : string) : M Metadata :=
  emit (DescribeSecret arn) ;;
  st ← read_store;
  match st !! arn with
  | None => raise ResourceNotFoundException
  | Some s =>
      mret {| md_RotationEnabled := RotationEnabled s;
              md_VersionIdsToStages := VersionIdsToStages s |}
  end.

(** Modelled from the spec: [get_secret_value] of the external Secret
    Store Client ("fetch a credential payload by stage and optional
    token"). With a version id, that version must carry the stage; without
    one, the version carrying the stage is taken. Anything missing is the
    store's "not found". *)
Definition get_secret_value (arn : string) (version : option string)
    (stage : string) : M plaintext :=
  emit (GetSecretValue arn version stage) ;;
  st ← read_store;
  match st !! arn with
  | None => raise ResourceNotFoundException
  | Some s =>
      let target :=
        match version with
        | Some v =>
            match dict_get v (VersionIdsToStages s) with
            | Some l => if contains stage l then Some v else None
            | None => None
            end
        | None => find_stage stage (VersionIdsToStages s)
        end in
      match target with
      | None => raise ResourceNotFoundException
      | Some v =>
          match SecretStrings s !! v with
          | Some p => mret p
          | None => raise ResourceNotFoundException
          end
      end
  end.

(** Modelled from the spec: [put_secret_value] of the external Secret
    Store Client ("write a new payload to a specific token under the
    PENDING label without disturbing other labels"). *)
Definition put_secret_value (arn token : string) (secret_string : plaintext)
    (stages : list string) : M unit :=
  emit (PutSecretValue arn token secret_string stages) ;;
  st ← read_store;
  match st !! arn with
  | None => raise ResourceNotFoundException
  | Some s =>
      write_store
        (<[arn := {| RotationEnabled := RotationEnabled s;
                     VersionIdsToStages :=
                       foldr (λ stage vs, dict_upd token (add_label stage) [] vs)
                         (VersionIdsToStages s) stages;
                     SecretStrings := <[token := secret_string]> (SecretStrings s) |}]>
           st)
  end.

(** Modelled from the spec: [update_secret_version_stage] of the external
    Secret Store Client. Both versions must exist and the label must be on
    the version it is removed from; a call that names no version to remove
    the label from is rejected. *)
Definition update_secret_version_stage (arn stage move_to : string)
    (remove_from : option string) : M unit :=
  emit (UpdateSecretVersionStage arn stage move_to remove_from) ;;
  st ← read_store;
  match st !! arn with
  | None => raise ResourceNotFoundException
  | Some s =>
      let vs := VersionIdsToStages s in
      match remove_from with
      | None => raise (ClientError "ParamValidationError")
      | Some from =>
          match dict_get move_to vs, dict_get from vs with
          | Some _, Some l =>
              if contains stage l then
                write_store
                  (<[arn := {| RotationEnabled := RotationEnabled s;
                               VersionIdsToStages := move_label stage move_to from vs;
                               SecretStrings := SecretStrings s |}]> st)
              else raise (ClientError "InvalidParameterException")
          | _, _ => raise ResourceNotFoundException
          end
      end
  end.

(** ** The rotation Lambda *)

(** The Lambda event. *)
Record Event : Type := {
  SecretId : string;
  ClientRequestToken : string;
  Step : string;
}.

(** The default of EXCLUDE_CHARACTERS: slash, at, double quote, single
    quote, backslash. *)
Definition default_exclude_characters : string :=
  "/@" +:+ String (ascii_of_nat 34) (String "'" (String (ascii_of_nat 92) "")).

(** How the [for] loop of [finish_secret] ends. *)
Inductive loop_exit : Type :=
  | Returned
  | Fell (current_version : option string).

Section Lambda.

Variable env : Env.

Definition get_random_password (exclude : string) : M string :=
  t ← history;
  emit (GetRandomPassword exclude) ;;
  lift (random_password env t exclude).

(** [pymysql.connect]. *)
Definition connect (args : ConnectArgs) : M nat :=
  t ← history;
  emit (Connect args) ;;
  lift (db_connect env t args) ;;
  mret (length t).

Definition execute (conn : nat) (sql : string) (args : list jval) : M unit :=
  t ← history;
  emit (Execute conn sql args) ;;
  lift (db_execute env t conn sql args).

Definition fetchall (conn : nat) : M (list (list string)) :=
  t ← history;
  emit (Fetchall conn) ;;
  mret (db_fetchall env t conn).

Definition commit (conn : nat) : M unit :=
  t ← history;
  emit (Commit conn) ;;
  lift (db_commit env t conn).

Definition close (conn : nat) : M unit := emit (Close conn).

(** [int(v)]. *)
Definition py_int (v : jval) : M Z :=
  match v with
  | JInt z => mret z
  | JStr s =>
      match parse_int env s with
      | Some z => mret z
      | None => raise (ValueError "invalid literal for int()")
      end
  end.

Definition get_connection (secret_dict : gmap string jval) : M (option nat) :=
  port ← match secret_dict !! "port" with
         | Some p => py_int p
         | None => mret 3306%Z
         end;
  let dbname := secret_dict !! "dbname" in
  try_except
    (host ← getitem secret_dict "host";
     user ← getitem secret_dict "username";
     passwd ← getitem secret_dict "password";
     connect {| ca_host := host; ca_user := user; ca_passwd := passwd;
                ca_port := port; ca_db := dbname;
                ca_connect_timeout := 5 |})
    (λ e, match e with
          | OperationalError => Some (mret None)
          | _ => None
          end)
    (λ conn, mret (Some conn)).

Definition required_fields : list string := ["host"; "username"; "password"].

Definition get_secret_dict (arn stage : string) (token : option string)
    : M (gmap string jval) :=
  secret ← (if truthy token then get_secret_value arn token stage
            else get_secret_value arn None stage);
  secret_dict ← lift (json_loads secret);
  (if bool_decide (secret_dict !! "engine" = Some (JStr "mariadb")) then mret tt
   else raise (KeyError "Database engine must be set to 'mariadb' in order to use this rotation lambda")) ;;
  for_each required_fields (λ field,
    match secret_dict !! field with
    | Some _ => mret tt
    | None => raise (KeyError (field +:+ " key is missing from secret JSON"))
    end) ;;
  mret secret_dict.

Definition is_rds_replica_database (replica_dict master_dict : gmap string jval)
    : M bool :=
  replica_host ← getitem replica_dict "host" ≫= as_str;
  let replica_instance_id := PyStr.split_0 "." replica_host in
  master_host ← getitem master_dict "host" ≫= as_str;
  let master_instance_id := PyStr.split_0 "." master_host in
  try_except
    (t ← history;
     emit (DescribeDBInstances replica_instance_id) ;;
     lift (rds_describe_db_instances env t replica_instance_id))
    (λ _, Some (mret false))
    (λ instances,
       match instances with
       | [] => mret false
       | current_instance :: _ =>
           mret (bool_decide
                   (Some master_instance_id
                    = ReadReplicaSourceDBInstanceIdentifier current_instance))
       end).

(** The excluded characters, from the environment or the default. *)
Definition exclude_characters : string :=
  match environ env !! "EXCLUDE_CHARACTERS" with
  | Some x => x
  | None => default_exclude_characters
  end.

Definition create_secret (arn token : string) : M unit :=
  current_dict ← get_secret_dict arn "AWSCURRENT" None;
  try_except
    (get_secret_dict arn "AWSPENDING" (Some token))
    (λ e, match e with
          | ResourceNotFoundException => Some (
              username ← getitem current_dict "username" ≫= as_str;
              alt ← lift (get_alt_username username);
              let current_dict := <["username" := JStr alt]> current_dict in
              passwd ← get_random_password exclude_characters;
              let current_dict := <["password" := JStr passwd]> current_dict in
              put_secret_value arn token (json_dumps current_dict) ["AWSPENDING"])
          | _ => None
          end)
    (λ _, mret tt).

(** The body of the [for] loop of [set_secret], for one row. *)
Definition replicate_grant (conn : nat) (pending_dict : gmap string jval)
    (row : list string) : M unit :=
  row_0 ← match row with
          | [] => raise IndexError
          | x :: _ => mret x
          end;
  let grant_0 := PyStr.split_0 " TO " row_0 in
  let new_grant_escaped := PyStr.replace_char "%" "%%" grant_0 in
  username ← getitem pending_dict "username";
  password ← getitem pending_dict "password";
  execute conn (new_grant_escaped +:+ " TO %s IDENTIFIED BY %s")
    [username; password].

(** The [try ... finally] block of [set_secret] on the master
    connection. *)
Definition replicate_grants (conn : nat)
    (current_dict pending_dict : gmap string jval) : M unit :=
  try_finally
    (username ← getitem current_dict "username";
     execute conn "SHOW GRANTS FOR %s" [username] ;;
     rows ← fetchall conn;
     for_each rows (replicate_grant conn pending_dict) ;;
     commit conn)
    (close conn).

Definition set_secret (arn token : string) : M unit :=
  current_dict ← get_secret_dict arn "AWSCURRENT" None;
  pending_dict ← get_secret_dict arn "AWSPENDING" (Some token);
  conn ← get_connection pending_dict;
  match conn with
  | Some c => close c
  | None =>
      current_username ← getitem current_dict "username";
      alt ← as_str current_username ≫= λ u, lift (get_alt_username u);
      pending_username ← getitem pending_dict "username";
      (if bool_decide (JStr alt ≠ pending_username) then
         raise (ValueError ("Attempting to modify user " +:+ py_str pending_username
                            +:+ " other than current user or clone "
                            +:+ py_str current_username))
       else mret tt) ;;
      current_host ← getitem current_dict "host";
      pending_host ← getitem pending_dict "host";
      (if bool_decide (current_host ≠ pending_host) then
         raise (ValueError ("Attempting to modify user for host " +:+ py_str pending_host
                            +:+ " other than current host " +:+ py_str current_host))
       else mret tt) ;;
      conn ← get_connection current_dict;
      match conn with
      | None =>
          raise (ValueError ("Unable to log into database using current credentials for secret "
                             +:+ arn))
      | Some c =>
          close c ;;
          master_arn ← getitem current_dict "masterarn";
          master_dict ←
            match master_arn with
            | JStr a => get_secret_dict a "AWSCURRENT" None
            | JInt _ => raise (ClientError "ParamValidationError")
            end;
          current_host ← getitem current_dict "host";
          master_host ← getitem master_dict "host";
          untrusted ←
            (if bool_decide (current_host ≠ master_host) then
               is_replica ← is_rds_replica_database current_dict master_dict;
               mret (negb is_replica)
             else mret false);
          if (untrusted : bool) then
            raise (ValueError ("Current database host " +:+ py_str current_host
                               +:+ " is not the same host as/rds replica of master "
                               +:+ py_str master_host))
          else
            conn ← get_connection master_dict;
            match conn with
            | None =>
                raise (ValueError ("Unable to log into database using credentials in master secret "
                                   +:+ py_str master_arn))
            | Some c => replicate_grants c current_dict pending_dict
            end
      end
  end.

Definition test_secret (arn token : string) : M unit :=
  pending_dict ← get_secret_dict arn "AWSPENDING" (Some token);
  conn ← get_connection pending_dict;
  match conn with
  | Some c =>
      try_finally (execute c "SELECT NOW()" [] ;; commit c) (close c)
  | None =>
      raise (ValueError ("Unable to log into database with pending secret of secret ARN "
                         +:+ arn))
  end.

(** The [for] loop of [finish_secret]: it returns from the function at a
    CURRENT version that is [token], breaks at one that is not, and falls
    through with [None] when no version is CURRENT. *)
Fixpoint finish_loop (token : string) (versions : list (string * list string))
    : loop_exit :=
  match versions with
  | [] => Fell None
  | (version, stages) :: rest =>
      if contains "AWSCURRENT" stages then
        if decide (version = token) then Returned else Fell (Some version)
      else finish_loop token rest
  end.

Definition finish_secret (arn token : string) : M unit :=
  metadata ← describe_secret arn;
  match finish_loop token (md_VersionIdsToStages metadata) with
  | Returned => mret tt
  | Fell current_version =>
      update_secret_version_stage arn "AWSCURRENT" token current_version
  end.

Definition lambda_handler (event : Event) : M unit :=
  let arn := SecretId event in
  let token := ClientRequestToken event in
  let step := Step event in
  match environ env !! "SECRETS_MANAGER_ENDPOINT" with
  | None => raise (KeyError "SECRETS_MANAGER_ENDPOINT")
  | Some _ =>
      metadata ← describe_secret arn;
      match md_RotationEnabled metadata with
      | Some false =>
          raise (ValueError ("Secret " +:+ arn +:+ " is not enabled for rotation"))
      | _ =>
          let versions := md_VersionIdsToStages metadata in
          match dict_get token versions with
          | None =>
              raise (ValueError ("Secret version " +:+ token
                                 +:+ " has no stage for rotation of secret "
                                 +:+ arn +:+ "."))
          | Some stages =>
              if contains "AWSCURRENT" stages then mret tt
              else if negb (contains "AWSPENDING" stages) then
                raise (ValueError ("Secret version " +:+ token
                                   +:+ " not set as AWSPENDING for rotation of secret "
                                   +:+ arn +:+ "."))
              else if String.eqb step "createSecret" then create_secret arn token
              else if String.eqb step "setSecret" then set_secret arn token
              else if String.eqb step "testSecret" then test_secret arn token
              else if String.eqb step "finishSecret" then finish_secret arn token
              else
                raise (ValueError ("Invalid step parameter " +:+ step
                                   +:+ " for secret " +:+ arn))
          end
      end
  end.

End Lambda.

(** ** A concrete rotation scenario *)

Module Scenario.

Definition current_dict : gmap string jval :=
  <["engine" := JStr "mariadb"]>
    (<["host" := JStr "db1.cluster.example.com"]>
       (<["username" := JStr "app_user"]>
          (<["password" := JStr "old-password"]>
             (<["port" := JInt 3306]>
                (<["masterarn" := JStr "arn:master"]> ∅))))).

Definition master_dict : gmap string jval :=
  <["engine" := JStr "mariadb"]>
    (<["host" := JStr "db1.cluster.example.com"]>
       (<["username" := JStr "admin"]>
          (<["password" := JStr "admin-password"]> ∅))).

(** The master secret of another topology: a different host. *)
Definition far_master_dict : gmap string jval :=
  <["host" := JStr "primary.cluster.example.com"]> master_dict.

(** A CURRENT record whose username is too long to be cloned. *)
Definition long_user_dict : gmap string jval :=
  <["username" := JStr "reporting_service_account_for_quarterly_financial_consolidation_batch_jobs_eu"]>
    current_dict.

Definition app_secret (current : gmap string jval) : Secret :=
  {| RotationEnabled := Some true;
     VersionIdsToStages :=
       [("v0", ["AWSPREVIOUS"]); ("v1", ["AWSCURRENT"]); ("v2", ["AWSPENDING"])];
     SecretStrings := <["v1" := JsonObject current]> ∅ |}.

Definition master_secret (d : gmap string jval) : Secret :=
  {| RotationEnabled := None;
     VersionIdsToStages := [("m1", ["AWSCURRENT"])];
     SecretStrings := <["m1" := JsonObject d]> ∅ |}.

Definition world (current master : gmap string jval) : World :=
  {| secrets :=
       <["arn:app" := app_secret current]>
         (<["arn:master" := master_secret master]> ∅);
     trace := [] |}.

(** The record createSecret stages for [current_dict]. *)
Definition pending_dict : gmap string jval :=
  <["password" := JStr "n3w-Passw0rd"]>
    (<["username" := JStr "app_user_clone"]> current_dict).

(** The world once createSecret has run. *)
Definition staged_world (master : gmap string jval) : World :=
  {| secrets :=
       <["arn:app" :=
           {| RotationEnabled := Some true;
              VersionIdsToStages := VersionIdsToStages (app_secret current_dict);
              SecretStrings :=
                <["v2" := JsonObject pending_dict]>
                  (SecretStrings (app_secret current_dict)) |}]>
         (<["arn:master" := master_secret master]> ∅);
     trace := [] |}.

Definition grants : list (list string) :=
  [ ["GRANT USAGE ON *.* TO 'app_user'@'%' IDENTIFIED BY PASSWORD 'x'"];
    ["GRANT SELECT ON `shop`.* TO 'app_user'@'%'"] ].

(** The accounts [app_user] and [admin] can log in; the inventory answers
    [inventory]; every statement but those in [failing] succeeds. *)
Definition env (failing : string → bool)
    (inventory : result (list DBInstance)) : Env :=
  {| environ := <["SECRETS_MANAGER_ENDPOINT" := "https://secretsmanager.example.com"]> ∅;
     parse_int := λ _, None;
     random_password := λ _ _, Ok "n3w-Passw0rd";
     db_connect := λ _ args,
       if bool_decide (ca_user args = JStr "app_user")
          || bool_decide (ca_user args = JStr "admin")
       then Ok tt else Raise OperationalError;
     db_execute := λ _ _ sql _,
       if failing sql then Raise OperationalError else Ok tt;
     db_fetchall := λ _ _, grants;
     db_commit := λ _ _, Ok tt;
     rds_describe_db_instances := λ _ _, inventory |}.

(** How the scenario's accounts connect. *)
Definition connect_args (user passwd : string) : ConnectArgs :=
  {| ca_host := JStr "db1.cluster.example.com"; ca_user := JStr user;
     ca_passwd := JStr passwd; ca_port := 3306; ca_db := None;
     ca_connect_timeout := 5 |}.

Definition request (step : string) : Event :=
  {| SecretId := "arn:app"; ClientRequestToken := "v2"; Step := step |}.

End Scenario.

(** ** Vocabulary of the properties *)

Definition is_ok {A} (r : result A) : bool :=
  match r with Ok _ => true | Raise _ => false end.

(** What the inventory's answer about the candidate says of [master_id]:
    an error and an empty list say nothing; the first instance otherwise
    says whether [master_id] is its replication source. *)
Definition confirms_replica (answer : result (list DBInstance))
    (master_id : string) : Prop :=
  ∃ instance rest,
    answer = Ok (instance :: rest)
    ∧ ReadReplicaSourceDBInstanceIdentifier instance = Some master_id.

(** The statement [set_secret] derives from the first column of a grant
    row, for the pending user. *)
Definition grant_statement (conn : nat) (username password : jval)
    (row_0 : string) : event :=
  Execute conn
    (PyStr.replace_char "%" "%%" (PyStr.split_0 " TO " row_0)
     +:+ " TO %s IDENTIFIED BY %s")
    [username; password].

(** Whether the database accepted every statement among [evs], the calls
    made after [pre]. *)
Fixpoint executes_ok (env : Env) (pre evs : list event) : bool :=
  match evs with
  | [] => true
  | e :: rest =>
      match e with
      | Execute conn sql args => is_ok (db_execute env pre conn sql args)
      | _ => true
      end
      && executes_ok env (pre ++ [e]) rest
  end.

(** The rows a run of the loop got through, and what it sent for them. *)
Definition replicated (conn : nat) (pending_dict : gmap string jval)
    (row : list string) (e : event) : Prop :=
  ∃ row_0 rest username password,
    row = row_0 :: rest
    ∧ pending_dict !! "username" = Some username
    ∧ pending_dict !! "password" = Some password
    ∧ e = grant_statement conn username password row_0.

(** ** What a handler leaves unchanged *)

(** [keeps R m]: running [m] relates the world before to the world after,
    whether [m] returns or raises. *)
Definition keeps (R : relation World) {A} (m : M A) : Prop :=
  ∀ w, R w (m w).2.

(** Only events in [P] are emitted and the store is left as it was. *)
Definition quiet (P : event → Prop) : relation World := λ w w',
  secrets w' = secrets w
  ∧ ∃ evs, trace w' = trace w ++ evs ∧ Forall P evs.

Definition is_store_read (e : event) : bool :=
  match e with
  | DescribeSecret _ | GetSecretValue _ _ _ => true
  | _ => false
  end.

Definition no_store_write (e : event) : Prop :=
  is_store_write e = false ∧ is_password_generation e = false.

(** ** Further vocabulary *)

(** [sep in s]: whether [sep] occurs in [s]. *)
Fixpoint str_in (sep s : string) : bool :=
  match s with
  | EmptyString => String.prefix sep EmptyString
  | String _ r => String.prefix sep s || str_in sep r
  end.

(** What [get_secret_dict] lets through: the engine is mariadb and the
    three required fields are there. *)
Definition valid_secret (d : gmap string jval) : Prop :=
  d !! "engine" = Some (JStr "mariadb")
  ∧ is_Some (d !! "host")
  ∧ is_Some (d !! "username")
  ∧ is_Some (d !! "password").

(** What [get_connection] makes of the answer of [pymysql.connect]. *)
Definition login_outcome (answer : result unit) (conn : nat)
    : result (option nat) :=
  match answer with
  | Ok _ => Ok (Some conn)
  | Raise OperationalError => Ok None
  | Raise e => Raise e
  end.

(** Calls to the database and to the inventory. *)
Definition is_db_call (e : event) : bool :=
  match e with
  | Connect _ | Execute _ _ _ | Fetchall _ | Commit _ | Close _
  | DescribeDBInstances _ => true
  | _ => false
  end.

(** Only events in [P] are emitted; the store may change. *)
Definition emits (P : event → Prop) : relation World := λ w w',
  ∃ evs, trace w' = trace w ++ evs ∧ Forall P evs.

(** Among the calls [evs] made after [t0], every connection that was
    opened is closed later. *)
Definition leak_free (env : Env) (t0 evs : list event) : Prop :=
  ∀ i args,
    evs !! i = Some (Connect args) →
    db_connect env (t0 ++ take i evs) args = Ok tt →
    ∃ j, i < j ∧ evs !! j = Some (Close (length t0 + i)).

Definition closes (env : Env) : relation World := λ w w',
  ∃ evs, trace w' = trace w ++ evs ∧ leak_free env (trace w) evs.

(** As [closes], and the connection [conn], opened before, is closed. *)
Definition closing (env : Env) (conn : nat) : relation World := λ w w',
  ∃ evs, trace w' = trace w ++ evs ∧ leak_free env (trace w) evs
         ∧ Close conn ∈ evs.

(** The port [get_connection] connects to: [int(secret_dict['port'])], or
    3306 without the key. *)
Definition port_of (env : Env) (secret_dict : gmap string jval) : result Z :=
  match secret_dict !! "port" with
  | None => Ok 3306%Z
  | Some (JInt z) => Ok z
  | Some (JStr s) =>
      match parse_int env s with
      | Some z => Ok z
      | None => Raise (ValueError "invalid literal for int()")
      end
  end.

(** Further scenarios: who can log in is a parameter, and so are the
    three records. *)
Module Cases.

Definition env (logins : list string) (failing : string → bool)
    (inventory : result (list DBInstance)) : Env :=
  {| environ := <["SECRETS_MANAGER_ENDPOINT" := "https://secretsmanager.example.com"]> ∅;
     parse_int := λ _, None;
     random_password := λ _ _, Ok "n3w-Passw0rd";
     db_connect := λ _ args,
       if bool_decide (py_str (ca_user args) ∈ logins)
       then Ok tt else Raise OperationalError;
     db_execute := λ _ _ sql _,
       if failing sql then Raise OperationalError else Ok tt;
     db_fetchall := λ _ _, Scenario.grants;
     db_commit := λ _ _, Ok tt;
     rds_describe_db_instances := λ _ _, inventory |}.

Definition staged (current pending master : gmap string jval) : World :=
  {| secrets :=
       <["arn:app" :=
           {| RotationEnabled := Some true;
              VersionIdsToStages :=
                [("v0", ["AWSPREVIOUS"]); ("v1", ["AWSCURRENT"]);
                 ("v2", ["AWSPENDING"])];
              SecretStrings :=
                <["v2" := JsonObject pending]>
                  (<["v1" := JsonObject current]> ∅) |}]>
         (<["arn:master" := Scenario.master_secret master]> ∅);
     trace := [] |}.

(** The world in which setSecret runs its checks on the application
    secret: both records read, one login tried with the PENDING record. *)
Definition at_checks (w : World) (host user passwd : string) : World :=
  after (after (after w [GetSecretValue "arn:app" None "AWSCURRENT"])
           [GetSecretValue "arn:app" (Some "v2") "AWSPENDING"])
    [Connect {| ca_host := JStr host; ca_user := JStr user;
                ca_passwd := JStr passwd; ca_port := 3306; ca_db := None;
                ca_connect_timeout := 5 |}].

(** The application secret with rotation switched off. *)
Definition disabled : World :=
  {| secrets :=
       <["arn:app" :=
           {| RotationEnabled := Some false;
              VersionIdsToStages :=
                [("v0", ["AWSPREVIOUS"]); ("v1", ["AWSCURRENT"]);
                 ("v2", ["AWSPENDING"])];
              SecretStrings :=
                <["v1" := JsonObject Scenario.current_dict]> ∅ |}]> ∅;
     trace := [] |}.

End Cases.

(** [set_secret] has read both records and the login with the PENDING
    credential has failed: the run reaches its checks, in [w3]. *)
Definition set_secret_starts (env : Env) (arn token : string) (w : World)
    (current_dict pending_dict : gmap string jval) (w3 : World) : Prop :=
  ∃ w1 w2,
    get_secret_dict arn "AWSCURRENT" None w = (Ok current_dict, w1)
    ∧ get_secret_dict arn "AWSPENDING" (Some token) w1 = (Ok pending_dict, w2)
    ∧ get_connection env pending_dict w2 = (Ok None, w3).

(** The PENDING user is the alternate of the CURRENT user. *)
Definition alternate_user (current_dict pending_dict : gmap string jval)
    : Prop :=
  ∃ username alt,
    current_dict !! "username" = Some (JStr username)
    ∧ get_alt_username username = Ok alt
    ∧ pending_dict !! "username" = Some (JStr alt).

(** The two records name the same host. *)
Definition same_host (current_dict pending_dict : gmap string jval) : Prop :=
  ∃ host,
    current_dict !! "host" = Some host ∧ pending_dict !! "host" = Some host.

Definition is_connect (e : event) : bool :=
  match e with Connect _ => true | _ => false end.


(** * Facts about the string primitives *)

Module PyStrFacts.
Import PyStr.

Local Arguments String.append !_ _ / : simpl nomatch.

Lemma length_app s t :
  String.length (s +:+ t) = String.length s + String.length t.
Proof. induction s as [|a s IH]; simpl; [done | by rewrite IH]. Qed.

Lemma substring_0_app s t :
  String.substring 0 (String.length s) (s +:+ t) = s.
Proof.
  induction s as [|a s IH]; simpl.
  - by destruct t.
  - by rewrite IH.
Qed.

Lemma substring_skip_app s t n :
  String.substring (String.length s) n (s +:+ t) = String.substring 0 n t.
Proof. induction s as [|a s IH]; simpl; done. Qed.

Lemma substring_0_all s : String.substring 0 (String.length s) s = s.
Proof. induction s as [|a s IH]; simpl; [done | by rewrite IH]. Qed.

Lemma substring_split s n :
  n <= String.length s →
  s = String.substring 0 n s
      +:+ String.substring n (String.length s - n) s.
Proof.
  revert n. induction s as [|a s IH]; intros n Hn; simpl in *.
  - by destruct n.
  - destruct n as [|n]; simpl.
    + by rewrite substring_0_all.
    + change (String a s = String a (String.substring 0 n s
               +:+ String.substring n (String.length s - n) s)).
      f_equal. apply IH. lia.
Qed.

Lemma app_nil_r s : s +:+ "" = s.
Proof. induction s as [|a s IH]; simpl; [done | by rewrite IH]. Qed.

Lemma app_assoc s t u : (s +:+ t) +:+ u = s +:+ t +:+ u.
Proof. induction s as [|a s IH]; simpl; [done | by rewrite IH]. Qed.

Lemma app_inv_tail s t u : s +:+ u = t +:+ u → s = t.
Proof.
  revert t. induction s as [|a s IH]; intros [|b t] H; simpl in *.
  - done.
  - apply (f_equal String.length) in H. simpl in H.
    rewrite length_app in H. lia.
  - apply (f_equal String.length) in H. simpl in H.
    rewrite length_app in H. lia.
  - change (String a (s +:+ u) = String b (t +:+ u)) in H.
    injection H as -> H. f_equal. by apply IH.
Qed.

Lemma slice_to_neg_app p suf :
  slice_to_neg (String.length suf) (p +:+ suf) = p.
Proof.
  unfold slice_to_neg. rewrite length_app.
  replace (String.length p + String.length suf - String.length suf)
    with (String.length p) by lia.
  apply substring_0_app.
Qed.

Lemma endswith_app p suf : endswith (p +:+ suf) suf = true.
Proof.
  unfold endswith. rewrite length_app. apply andb_true_iff. split.
  - apply Nat.leb_le. lia.
  - replace (String.length p + String.length suf - String.length suf)
      with (String.length p) by lia.
    rewrite substring_skip_app, substring_0_all. apply String.eqb_refl.
Qed.

(** [endswith] holds exactly of the strings that are some prefix followed
    by the suffix, and the prefix is what [s[:-len(suf)]] returns. *)
Lemma endswith_true s suf :
  endswith s suf = true ↔ s = slice_to_neg (String.length suf) s +:+ suf.
Proof.
  split.
  - unfold endswith, slice_to_neg. intros [Hlen Heq]%andb_true_iff.
    apply Nat.leb_le in Hlen. apply String.eqb_eq in Heq.
    rewrite (substring_split s (String.length s - String.length suf))
      at 1 by lia.
    f_equal.
    replace (String.length s - (String.length s - String.length suf))
      with (String.length suf) by lia.
    done.
  - intros ->. apply endswith_app.
Qed.

Lemma endswith_iff s suf : endswith s suf = true ↔ ∃ p, s = p +:+ suf.
Proof.
  split.
  - intros H%endswith_true. eauto.
  - intros [p ->]. apply endswith_app.
Qed.

Lemma endswith_length s suf :
  endswith s suf = true → String.length suf <= String.length s.
Proof. unfold endswith. intros [H _]%andb_true_iff. by apply Nat.leb_le. Qed.

End PyStrFacts.

(** * Reasoning about the handlers' monad *)

Lemma bind_ok {A B} (m : M A) (k : A → M B) w a w' :
  m w = (Ok a, w') → (m ≫= k) w = k a w'.
Proof. intros H. unfold mbind, M_bind. by rewrite H. Qed.

Lemma bind_raise {A B} (m : M A) (k : A → M B) w e w' :
  m w = (Raise e, w') → (m ≫= k) w = (Raise e, w').
Proof. intros H. unfold mbind, M_bind. by rewrite H. Qed.

Lemma getitem_ok (d : gmap string jval) k v w :
  d !! k = Some v → getitem d k w = (Ok v, w).
Proof. intros H. unfold getitem. by rewrite H. Qed.

Global Instance quiet_preorder P : PreOrder (quiet P).
Proof.
  split.
  - intros w. split; [done|]. exists []. by rewrite app_nil_r.
  - intros w1 w2 w3 [Hs1 (evs1 & Ht1 & HP1)] [Hs2 (evs2 & Ht2 & HP2)].
    split; [congruence|]. exists (evs1 ++ evs2).
    rewrite Ht2, Ht1, app_assoc. split; [done|]. by apply Forall_app.
Qed.

Section Keeps.
Context (R : relation World) `{!PreOrder R}.

Lemma keeps_ret {A} (a : A) : keeps R (mret a).
Proof. intros w. reflexivity. Qed.

Lemma keeps_raise {A} e : keeps R (@raise A e).
Proof. intros w. reflexivity. Qed.

Lemma keeps_lift {A} (r : result A) : keeps R (lift r).
Proof. intros w. reflexivity. Qed.

Lemma keeps_history : keeps R history.
Proof. intros w. reflexivity. Qed.

Lemma keeps_read_store : keeps R read_store.
Proof. intros w. reflexivity. Qed.

Lemma keeps_bind {A B} (m : M A) (k : A → M B) :
  keeps R m → (∀ a, keeps R (k a)) → keeps R (m ≫= k).
Proof.
  intros Hm Hk w. unfold mbind, M_bind. specialize (Hm w).
  destruct (m w) as [[a|e] w1]; simpl in *; [|done].
  etrans; [done|]. apply Hk.
Qed.

Lemma keeps_try_except {A B} (m : M A) (h : exn → option (M B)) (k : A → M B) :
  keeps R m →
  (∀ e hm, h e = Some hm → keeps R hm) →
  (∀ a, keeps R (k a)) →
  keeps R (try_except m h k).
Proof.
  intros Hm Hh Hk w. unfold try_except. specialize (Hm w).
  destruct (m w) as [[a|e] w1]; simpl in *.
  - etrans; [done|]. apply Hk.
  - destruct (h e) as [hm|] eqn:He; simpl; [|done].
    etrans; [done|]. by apply (Hh e).
Qed.

Lemma keeps_try_finally {A} (m : M A) (f : M unit) :
  keeps R m → keeps R f → keeps R (try_finally m f).
Proof.
  intros Hm Hf w. unfold try_finally. specialize (Hm w).
  destruct (m w) as [r w1]; simpl in *. specialize (Hf w1).
  destruct (f w1) as [[[]|e] w2]; simpl in *; by etrans.
Qed.

Lemma keeps_for_each {A} (l : list A) (body : A → M unit) :
  (∀ x, keeps R (body x)) → keeps R (for_each l body).
Proof.
  intros Hb. induction l as [|x l IH]; simpl.
  - apply keeps_ret.
  - apply keeps_bind; [apply Hb | by intros _].
Qed.

Lemma keeps_getitem d k : keeps R (getitem d k).
Proof. unfold getitem. destruct (d !! k); [apply keeps_ret | apply keeps_raise]. Qed.

Lemma keeps_as_str v : keeps R (as_str v).
Proof. destruct v; [apply keeps_ret | apply keeps_raise]. Qed.

(** What [m] keeps, as a fact about one run of it. *)
Lemma keeps_run {A} (m : M A) w r w' : keeps R m → m w = (r, w') → R w w'.
Proof. intros Hm Hrun. specialize (Hm w). by rewrite Hrun in Hm. Qed.

End Keeps.

Lemma quiet_emit (P : event → Prop) e : P e → keeps (quiet P) (emit e).
Proof.
  intros He w. split; [done|]. exists [e]. split; [done|].
  by apply Forall_singleton.
Qed.

Lemma quiet_weaken (P Q : event → Prop) w w' :
  (∀ e, P e → Q e) → quiet P w w' → quiet Q w w'.
Proof.
  intros HPQ [Hs (evs & Ht & HP)]. split; [done|]. exists evs.
  split; [done|]. by eapply Forall_impl.
Qed.

Ltac keeps_order := try match goal with |- PreOrder _ => apply _ end.

(** Breaks a handler into its calls, leaving the events to be checked. *)
Ltac keeps_step :=
  first
    [ apply keeps_bind; keeps_order; [|intros ?]
    | apply keeps_try_except; keeps_order; [|intros ? ? ?|intros ?]
    | apply keeps_try_finally; keeps_order
    | apply keeps_for_each; keeps_order; intros ?
    | apply keeps_ret; keeps_order
    | apply keeps_raise; keeps_order
    | apply keeps_lift; keeps_order
    | apply keeps_history; keeps_order
    | apply keeps_read_store; keeps_order
    | apply keeps_getitem; keeps_order
    | apply keeps_as_str; keeps_order
    | match goal with
      | |- keeps _ (match ?x with _ => _ end) => destruct x
      | |- keeps _ (if ?b then _ else _) => destruct b
      end ].

(** ** Reads of the store *)

Section Reads.
Context (P : event → Prop).
Context (HP : ∀ e, is_store_read e = true → P e).

Lemma quiet_get_secret_value arn version stage :
  keeps (quiet P) (get_secret_value arn version stage).
Proof.
  unfold get_secret_value. keeps_step; [by apply quiet_emit, HP|].
  repeat keeps_step.
Qed.

Lemma quiet_get_secret_dict arn stage token :
  keeps (quiet P) (get_secret_dict arn stage token).
Proof.
  unfold get_secret_dict. keeps_step.
  { destruct (truthy token); apply quiet_get_secret_value. }
  repeat keeps_step.
Qed.

Lemma quiet_describe_secret arn : keeps (quiet P) (describe_secret arn).
Proof.
  unfold describe_secret. keeps_step; [by apply quiet_emit, HP|].
  repeat keeps_step.
Qed.

End Reads.

(** * The alternate-username resolver *)

Section AltUsername.
Import PyStr PyStrFacts.

Lemma get_alt_username_clone p : get_alt_username (p +:+ clone_suffix) = Ok p.
Proof.
  unfold get_alt_username.
  by rewrite endswith_app, slice_to_neg_app.
Qed.

Lemma get_alt_username_plain u :
  endswith u clone_suffix = false →
  (String.length u + String.length clone_suffix ≤ 80)%nat →
  get_alt_username u = Ok (u +:+ clone_suffix).
Proof.
  intros Hs Hlen. unfold get_alt_username. rewrite Hs, length_app.
  by destruct (Nat.ltb_spec 80 (String.length u + String.length clone_suffix));
    [lia|].
Qed.

Lemma get_alt_username_too_long u :
  endswith u clone_suffix = false →
  (80 < String.length u + String.length clone_suffix)%nat →
  get_alt_username u =
    Raise (ValueError "Unable to clone user, username length with _clone appended would exceed 80 characters").
Proof.
  intros Hs Hlen. unfold get_alt_username. rewrite Hs, length_app.
  by destruct (Nat.ltb_spec 80 (String.length u + String.length clone_suffix));
    [|lia].
Qed.

(** A username ends with the suffix twice exactly when its stripped form
    still ends with the suffix. *)
Lemma endswith_twice p :
  endswith (p +:+ clone_suffix) (clone_suffix +:+ clone_suffix)
  = endswith p clone_suffix.
Proof.
  apply eq_true_iff_eq. rewrite !endswith_iff. split.
  - intros [q Hq]. exists q. rewrite <- app_assoc in Hq.
    by apply app_inv_tail in Hq.
  - intros [q ->]. exists q. by rewrite app_assoc.
Qed.

(** C10. The suffix-stripping branch validates nothing: a username that
    ends with "_clone" resolves to what precedes the suffix, whatever its
    length, and "_clone" itself resolves to the empty username. *)
Theorem get_alt_username_strips_unchecked :
  (∀ p, get_alt_username (p +:+ "_clone") = Ok p)
  ∧ (∀ u, endswith u "_clone" = true →
          get_alt_username u = Ok (slice_to_neg 6 u)
          ∧ u = slice_to_neg 6 u +:+ "_clone")
  ∧ get_alt_username "_clone" = Ok "".
Proof.
  split; [|split].
  - apply get_alt_username_clone.
  - intros u Hu. split.
    + unfold get_alt_username, clone_suffix. by rewrite Hu.
    + by apply (endswith_true u "_clone").
  - reflexivity.
Qed.

Lemma get_alt_username_strips_unchecked_witness :
  get_alt_username "app_user_clone" = Ok "app_user"
  ∧ get_alt_username "app_user_clone" = Ok (slice_to_neg 6 "app_user_clone").
Proof.
  split.
  - apply (proj1 get_alt_username_strips_unchecked "app_user").
  - apply (proj1 (proj2 get_alt_username_strips_unchecked)). reflexivity.
Defined.

(** C5, as stated, fails: the alternate of a username that ends with the
    suffix twice still ends with the suffix, and is stripped again. *)
Lemma get_alt_username_not_involutive :
  get_alt_username "app_user_clone_clone" = Ok "app_user_clone"
  ∧ get_alt_username "app_user_clone" = Ok "app_user"
  ∧ ¬ (∀ u v, get_alt_username u = Ok v → get_alt_username v = Ok u).
Proof.
  split; [reflexivity|]. split; [reflexivity|].
  intros H. specialize (H "app_user_clone_clone" "app_user_clone" eq_refl).
  vm_compute in H. discriminate H.
Qed.

(** C5, amended. On a username the resolver accepts, resolving twice
    gives the username back exactly when it has at most 80 characters and
    does not end with "_clone_clone". *)
Theorem get_alt_username_involutive u v :
  get_alt_username u = Ok v →
  get_alt_username v = Ok u
  ↔ (String.length u ≤ 80)%nat ∧ endswith u "_clone_clone" = false.
Proof.
  intros Huv.
  destruct (endswith u clone_suffix) eqn:Hs.
  - (* [u] is [p ++ "_clone"] and [v] is [p] *)
    apply endswith_true in Hs.
    set (p := slice_to_neg (String.length clone_suffix) u) in *.
    rewrite Hs in Huv. rewrite get_alt_username_clone in Huv.
    injection Huv as <-. rewrite Hs.
    change "_clone_clone" with (clone_suffix +:+ clone_suffix).
    rewrite endswith_twice, length_app.
    destruct (endswith p clone_suffix) eqn:Hp.
    + split; [|intros [_ ?]; done].
      apply endswith_true in Hp. rewrite Hp at 1.
      rewrite get_alt_username_clone. intros [= Heq].
      apply (f_equal String.length) in Heq.
      rewrite Hp in Heq at 2. rewrite !length_app in Heq.
      simpl in Heq. lia.
    + destruct (decide (String.length p + String.length clone_suffix ≤ 80)%nat)
        as [Hle|Hgt].
      * rewrite get_alt_username_plain by done. done.
      * rewrite get_alt_username_too_long by (done || lia).
        split; [done | intros [? _]; lia].
  - (* [v] is [u ++ "_clone"] *)
    assert (endswith u "_clone_clone" = false) as Hss.
    { apply not_true_is_false. intros [q Hq]%endswith_iff.
      apply not_true_iff_false in Hs. apply Hs, endswith_iff.
      exists (q +:+ clone_suffix). by rewrite app_assoc. }
    destruct (decide (String.length u + String.length clone_suffix ≤ 80)%nat)
      as [Hle|Hgt].
    + rewrite get_alt_username_plain in Huv by done. injection Huv as <-.
      rewrite get_alt_username_clone. split; [|done].
      intros _. split; [lia | done].
    + rewrite get_alt_username_too_long in Huv by (done || lia). done.
Qed.

Lemma get_alt_username_involutive_witness :
  get_alt_username "app_user_clone" = Ok "app_user".
Proof.
  apply (get_alt_username_involutive "app_user" "app_user_clone").
  - reflexivity.
  - split; [simpl; lia | reflexivity].
Defined.

End AltUsername.

(** * createSecret *)

(** Unfolds the monad's plumbing in the goal. *)
Ltac run :=
  cbv beta iota delta
    [mbind M_bind mret M_ret raise lift history emit read_store write_store
     getitem as_str try_except try_finally].

Lemma get_secret_value_ok_secret arn version stage w p w' :
  get_secret_value arn version stage w = (Ok p, w') →
  is_Some (secrets w !! arn).
Proof.
  unfold get_secret_value. run. simpl.
  destruct (secrets w !! arn); [eauto | discriminate].
Qed.

Lemma get_secret_dict_ok_secret arn stage token w d w' :
  get_secret_dict arn stage token w = (Ok d, w') →
  is_Some (secrets w !! arn).
Proof.
  unfold get_secret_dict. unfold mbind at 1, M_bind at 1.
  destruct (truthy token).
  - destruct (get_secret_value arn token stage w) as [[p|e] w1] eqn:Hv;
      [|discriminate].
    intros _. by eapply get_secret_value_ok_secret.
  - destruct (get_secret_value arn None stage w) as [[p|e] w1] eqn:Hv;
      [|discriminate].
    intros _. by eapply get_secret_value_ok_secret.
Qed.

Lemma dict_get_dict_upd {V} k (f : V → V) d vs :
  dict_get k (dict_upd k f d vs) = Some (f (default d (dict_get k vs))).
Proof.
  induction vs as [|[k' v] vs IH]; simpl.
  - by rewrite decide_True.
  - destruct (decide (k' = k)) as [->|Hne]; simpl.
    + by rewrite decide_True.
    + by rewrite decide_False.
Qed.

Lemma contains_spec x l : contains x l = true ↔ x ∈ l.
Proof. unfold contains. apply bool_decide_eq_true. Qed.

Lemma contains_false x l : contains x l = false ↔ x ∉ l.
Proof. unfold contains. apply bool_decide_eq_false. Qed.

Lemma elem_of_add_label stage x l :
  x ∈ add_label stage l ↔ x = stage ∨ x ∈ l.
Proof.
  unfold add_label. destruct (contains stage l) eqn:Hc.
  - apply contains_spec in Hc. split; [by right|].
    by intros [->|?].
  - rewrite elem_of_app, list_elem_of_singleton. tauto.
Qed.

Lemma elem_of_remove_label stage x l :
  x ∈ remove_label stage l ↔ x ≠ stage ∧ x ∈ l.
Proof. unfold remove_label. by rewrite list_elem_of_filter. Qed.

Lemma store_read_no_write e : is_store_read e = true → no_store_write e.
Proof. by destruct e. Qed.

(** C6, as stated, fails: an 80-character username that ends with the
    suffix is too long to take the suffix again, yet the resolver accepts
    it, since it strips the suffix instead. *)
Lemma get_alt_username_long_clone_accepted :
  let u := "reporting_service_account_for_quarterly_financial_consolidation_batch_jobs_clone" in
  ¬ ((∃ e, get_alt_username u = Raise e)
     ↔ 80 < String.length u + String.length "_clone").
Proof.
  intros u [_ H]. destruct H as [e He].
  - vm_compute. lia.
  - vm_compute in He. discriminate He.
Qed.

(** C6, amended. The resolver fails, with the too-long error and no other,
    exactly on a username that does not end with "_clone" and that the
    suffix would take beyond 80 characters; and when it fails on the
    CURRENT username, createSecret asks for no password and writes nothing
    to the store: with no PENDING record at the token it raises that
    error. *)
Theorem get_alt_username_fails_iff_too_long env :
  (∀ u e,
     get_alt_username u = Raise e
     ↔ e = ValueError "Unable to clone user, username length with _clone appended would exceed 80 characters"
       ∧ PyStr.endswith u "_clone" = false
       ∧ 80 < String.length u + String.length "_clone")
  ∧ (∀ arn token w current_dict w1 u e,
       get_secret_dict arn "AWSCURRENT" None w = (Ok current_dict, w1) →
       current_dict !! "username" = Some (JStr u) →
       get_alt_username u = Raise e →
       quiet no_store_write w (create_secret env arn token w).2
       ∧ (∀ w2,
            get_secret_dict arn "AWSPENDING" (Some token) w1
            = (Raise ResourceNotFoundException, w2) →
            create_secret env arn token w = (Raise e, w2))).
Proof.
  split.
  - intros u e. split.
    + unfold get_alt_username. fold clone_suffix.
      destruct (PyStr.endswith u clone_suffix); [discriminate|].
      rewrite PyStrFacts.length_app.
      destruct (Nat.ltb_spec 80 (String.length u + String.length clone_suffix));
        [|discriminate].
      intros [= <-]. done.
    + intros (-> & Hs & Hlen). by apply get_alt_username_too_long.
  - intros arn token w cur w1 u e Hcur Hu He.
    pose proof (keeps_run _ _ _ _ _
                  (quiet_get_secret_dict _ store_read_no_write _ _ _) Hcur)
      as Hq1.
    unfold create_secret. rewrite (bind_ok _ _ _ _ _ Hcur).
    unfold try_except.
    destruct (get_secret_dict arn "AWSPENDING" (Some token) w1)
      as [[pend|e'] w2] eqn:Hpend.
    all: pose proof (keeps_run _ _ _ _ _
                       (quiet_get_secret_dict _ store_read_no_write _ _ _) Hpend)
           as Hq2.
    + split; [simpl; by etrans | done].
    + assert ((getitem cur "username" ≫= as_str) w2 = (Ok u, w2)) as Hget.
      { run. by rewrite Hu. }
      destruct e'; try (split; [simpl; by etrans | done]).
      rewrite (bind_ok _ _ _ _ _ Hget).
      unfold mbind at 1, M_bind at 1, lift at 1. rewrite He.
      split; [simpl; by etrans | by intros ? [= <-]].
Qed.

Lemma get_alt_username_fails_iff_too_long_witness :
  ∃ w',
    create_secret (Scenario.env (λ _, false) (Ok [])) "arn:app" "v2"
      (Scenario.world Scenario.long_user_dict Scenario.master_dict)
    = (Raise (ValueError "Unable to clone user, username length with _clone appended would exceed 80 characters"), w').
Proof.
  pose (w := Scenario.world Scenario.long_user_dict Scenario.master_dict).
  pose (w1 := after w [GetSecretValue "arn:app" None "AWSCURRENT"]).
  pose (w2 := after w1 [GetSecretValue "arn:app" (Some "v2") "AWSPENDING"]).
  exists w2.
  apply (proj2 (proj2 (get_alt_username_fails_iff_too_long
                         (Scenario.env (λ _, false) (Ok [])))
                  "arn:app" "v2" w Scenario.long_user_dict w1
                  "reporting_service_account_for_quarterly_financial_consolidation_batch_jobs_eu"
                  _ eq_refl eq_refl eq_refl)
           w2 eq_refl).
Defined.

(** C7. createSecret is idempotent and preserves the frame. With a PENDING
    record already at the token it returns with nothing but the two reads
    of the store. With none, what it stores as the PENDING version at the
    token is the CURRENT record with the username replaced by its
    alternate and the password by the generated one, every other field
    as it was; the payloads of the other versions are untouched. *)
Theorem create_secret_idempotent_frame env arn token w current_dict w1 :
  get_secret_dict arn "AWSCURRENT" None w = (Ok current_dict, w1) →
  (∀ pending_dict w2,
     get_secret_dict arn "AWSPENDING" (Some token) w1 = (Ok pending_dict, w2) →
     create_secret env arn token w = (Ok tt, w2)
     ∧ quiet (λ e, is_store_read e = true) w w2)
  ∧ (∀ w2 u alt passwd,
       get_secret_dict arn "AWSPENDING" (Some token) w1
       = (Raise ResourceNotFoundException, w2) →
       current_dict !! "username" = Some (JStr u) →
       get_alt_username u = Ok alt →
       random_password env (trace w2) (exclude_characters env) = Ok passwd →
       let stored :=
         <["password" := JStr passwd]> (<["username" := JStr alt]> current_dict) in
       ∃ w' sec sec',
         create_secret env arn token w = (Ok tt, w')
         ∧ trace w' =
             trace w2 ++ [GetRandomPassword (exclude_characters env);
                          PutSecretValue arn token (JsonObject stored) ["AWSPENDING"]]
         ∧ stored !! "username" = Some (JStr alt)
         ∧ stored !! "password" = Some (JStr passwd)
         ∧ (∀ k, k ≠ "username" → k ≠ "password" →
                 stored !! k = current_dict !! k)
         ∧ secrets w !! arn = Some sec
         ∧ secrets w' !! arn = Some sec'
         ∧ SecretStrings sec' !! token = Some (JsonObject stored)
         ∧ (∃ l, dict_get token (VersionIdsToStages sec') = Some l
                 ∧ "AWSPENDING" ∈ l)
         ∧ (∀ t, t ≠ token → SecretStrings sec' !! t = SecretStrings sec !! t)).
Proof.
  intros Hcur.
  pose proof (keeps_run _ _ _ _ _
                (quiet_get_secret_dict _ (λ e H, H) _ _ _) Hcur) as Hq1.
  split.
  - intros pend w2 Hpend.
    pose proof (keeps_run _ _ _ _ _
                  (quiet_get_secret_dict _ (λ e H, H) _ _ _) Hpend) as Hq2.
    split; [|by etrans].
    unfold create_secret. rewrite (bind_ok _ _ _ _ _ Hcur).
    unfold try_except. by rewrite Hpend.
  - intros w2 u alt passwd Hpend Hu Halt Hpw stored.
    pose proof (keeps_run _ _ _ _ _
                  (quiet_get_secret_dict _ (λ e H, H) _ _ _) Hpend) as Hq2.
    destruct (get_secret_dict_ok_secret _ _ _ _ _ _ Hcur) as [sec Hsec].
    assert (secrets w2 = secrets w) as Hs2.
    { destruct Hq1 as [E1 _], Hq2 as [E2 _]. congruence. }
    eexists _, sec, _.
    split.
    { unfold create_secret. rewrite (bind_ok _ _ _ _ _ Hcur).
      unfold try_except. rewrite Hpend.
      unfold get_random_password, put_secret_value. run.
      rewrite Hu, Halt, Hpw. simpl. rewrite Hs2, Hsec. reflexivity. }
    simpl. unfold json_dumps. fold stored.
    split; [by rewrite <- app_assoc|].
    split; [unfold stored; by rewrite lookup_insert_ne, lookup_insert_eq|].
    split; [unfold stored; by rewrite lookup_insert_eq|].
    split; [intros k ? ?; unfold stored; by rewrite !lookup_insert_ne|].
    split; [done|]. rewrite lookup_insert_eq. split; [done|]. simpl.
    split; [by rewrite lookup_insert_eq|].
    split.
    + rewrite dict_get_dict_upd. eexists. split; [done|].
      apply elem_of_add_label. by left.
    + intros t Ht. by rewrite lookup_insert_ne.
Qed.

Lemma create_secret_idempotent_frame_witness :
  ∃ w',
    create_secret (Scenario.env (λ _, false) (Ok [])) "arn:app" "v2"
      (Scenario.world Scenario.current_dict Scenario.master_dict)
    = (Ok tt, w')
    ∧ trace w' !! 3
      = Some (PutSecretValue "arn:app" "v2"
                (JsonObject
                   (<["password" := JStr "n3w-Passw0rd"]>
                      (<["username" := JStr "app_user_clone"]>
                         Scenario.current_dict)))
                ["AWSPENDING"]).
Proof.
  pose (w := Scenario.world Scenario.current_dict Scenario.master_dict).
  pose (w1 := after w [GetSecretValue "arn:app" None "AWSCURRENT"]).
  pose (w2 := after w1 [GetSecretValue "arn:app" (Some "v2") "AWSPENDING"]).
  destruct (proj2 (create_secret_idempotent_frame (Scenario.env (λ _, false) (Ok []))
              "arn:app" "v2" w Scenario.current_dict w1 eq_refl)
              w2 "app_user" "app_user_clone" "n3w-Passw0rd"
              eq_refl eq_refl eq_refl eq_refl)
    as (w' & sec & sec' & Hrun & Htrace & _).
  exists w'. split; [exact Hrun|]. rewrite Htrace. reflexivity.
Defined.

(** * The coordinator gate *)

Lemma describe_secret_run arn w sec :
  secrets w !! arn = Some sec →
  describe_secret arn w
  = (Ok {| md_RotationEnabled := RotationEnabled sec;
           md_VersionIdsToStages := VersionIdsToStages sec |},
     after w [DescribeSecret arn]).
Proof. intros Hsec. unfold describe_secret. run. simpl. by rewrite Hsec. Qed.

(** The handler up to the gate: with the endpoint configured and the
    secret in the store, what is left is the case analysis on the
    metadata, run in the world after the one [describe_secret] call. *)
Lemma lambda_handler_after_describe env event w sec :
  is_Some (environ env !! "SECRETS_MANAGER_ENDPOINT") →
  secrets w !! SecretId event = Some sec →
  lambda_handler env event w
  = let arn := SecretId event in
    let token := ClientRequestToken event in
    let step := Step event in
    let w1 := after w [DescribeSecret arn] in
    match RotationEnabled sec with
    | Some false =>
        (Raise (ValueError ("Secret " +:+ arn +:+ " is not enabled for rotation")), w1)
    | _ =>
        match dict_get token (VersionIdsToStages sec) with
        | None =>
            (Raise (ValueError ("Secret version " +:+ token
                                +:+ " has no stage for rotation of secret "
                                +:+ arn +:+ ".")), w1)
        | Some stages =>
            if contains "AWSCURRENT" stages then (Ok tt, w1)
            else if negb (contains "AWSPENDING" stages) then
              (Raise (ValueError ("Secret version " +:+ token
                                  +:+ " not set as AWSPENDING for rotation of secret "
                                  +:+ arn +:+ ".")), w1)
            else if String.eqb step "createSecret" then create_secret env arn token w1
            else if String.eqb step "setSecret" then set_secret env arn token w1
            else if String.eqb step "testSecret" then test_secret env arn token w1
            else if String.eqb step "finishSecret" then finish_secret arn token w1
            else
              (Raise (ValueError ("Invalid step parameter " +:+ step
                                  +:+ " for secret " +:+ arn)), w1)
        end
    end.
Proof.
  intros [endpoint Hend] Hsec. unfold lambda_handler. rewrite Hend.
  rewrite (bind_ok _ _ _ _ _ (describe_secret_run _ _ _ Hsec)). simpl.
  destruct (RotationEnabled sec) as [[]|]; try done.
  all: destruct (dict_get _ _) as [stages|]; try done.
  all: destruct (contains "AWSCURRENT" stages); try done.
  all: destruct (contains "AWSPENDING" stages); simpl; try done.
  all: repeat (destruct (String.eqb _ _); [done|]); done.
Qed.

(** C1. The gate of the coordinator, in the world [w1] reached by its one
    read of the metadata. It fails when rotation is explicitly disabled;
    otherwise it fails when the token has no entry in the version-to-stage
    mapping; otherwise, a token labelled CURRENT gives success in [w1], no
    further call made; a token labelled neither CURRENT nor PENDING is a
    stage mismatch; only then does the named step handler run, from [w1],
    and a name that is none of the four steps is an invalid step. *)
Theorem lambda_handler_gate env event w sec :
  let arn := SecretId event in
  let token := ClientRequestToken event in
  let step := Step event in
  let w1 := after w [DescribeSecret arn] in
  is_Some (environ env !! "SECRETS_MANAGER_ENDPOINT") →
  secrets w !! arn = Some sec →
  (RotationEnabled sec = Some false →
   lambda_handler env event w
   = (Raise (ValueError ("Secret " +:+ arn +:+ " is not enabled for rotation")), w1))
  ∧ (RotationEnabled sec ≠ Some false →
     (dict_get token (VersionIdsToStages sec) = None →
      lambda_handler env event w
      = (Raise (ValueError ("Secret version " +:+ token
                            +:+ " has no stage for rotation of secret "
                            +:+ arn +:+ ".")), w1))
     ∧ (∀ stages,
          dict_get token (VersionIdsToStages sec) = Some stages →
          ("AWSCURRENT" ∈ stages → lambda_handler env event w = (Ok tt, w1))
          ∧ ("AWSCURRENT" ∉ stages → "AWSPENDING" ∉ stages →
             lambda_handler env event w
             = (Raise (ValueError ("Secret version " +:+ token
                                   +:+ " not set as AWSPENDING for rotation of secret "
                                   +:+ arn +:+ ".")), w1))
          ∧ ("AWSCURRENT" ∉ stages → "AWSPENDING" ∈ stages →
             (step = "createSecret" →
              lambda_handler env event w = create_secret env arn token w1)
             ∧ (step = "setSecret" →
                lambda_handler env event w = set_secret env arn token w1)
             ∧ (step = "testSecret" →
                lambda_handler env event w = test_secret env arn token w1)
             ∧ (step = "finishSecret" →
                lambda_handler env event w = finish_secret arn token w1)
             ∧ (step ∉ ["createSecret"; "setSecret"; "testSecret"; "finishSecret"] →
                lambda_handler env event w
                = (Raise (ValueError ("Invalid step parameter " +:+ step
                                      +:+ " for secret " +:+ arn)), w1))))).
Proof.
  intros arn token step w1 Hend Hsec.
  rewrite (lambda_handler_after_describe _ _ _ _ Hend Hsec).
  fold arn token step. cbv zeta. fold w1.
  split; [by intros ->|]. intros Hen.
  assert (∀ X : result unit * World,
            match RotationEnabled sec with
            | Some false =>
                (Raise (ValueError ("Secret " +:+ arn +:+ " is not enabled for rotation")), w1)
            | _ => X
            end = X) as Hskip.
  { intros X. by destruct (RotationEnabled sec) as [[]|]. }
  rewrite Hskip. clear Hskip.
  split; [by intros ->|]. intros stages ->.
  split; [by intros ->%contains_spec|].
  split.
  { intros ->%contains_false ->%contains_false. done. }
  intros ->%contains_false ->%contains_spec. simpl.
  split; [by intros ->|]. split; [by intros ->|].
  split; [by intros ->|]. split; [by intros ->|].
  intros Hstep.
  repeat match goal with
         | |- context [String.eqb step ?s] =>
             destruct (String.eqb_spec step s) as [Heq|_];
             [exfalso; apply Hstep; rewrite Heq; set_solver|]
         end.
  done.
Qed.

Lemma lambda_handler_gate_witness :
  lambda_handler (Scenario.env (λ _, false) (Ok [])) (Scenario.request "rollbackSecret")
    (Scenario.world Scenario.current_dict Scenario.master_dict)
  = (Raise (ValueError "Invalid step parameter rollbackSecret for secret arn:app"),
     after (Scenario.world Scenario.current_dict Scenario.master_dict)
       [DescribeSecret "arn:app"]).
Proof.
  destruct (lambda_handler_gate (Scenario.env (λ _, false) (Ok []))
              (Scenario.request "rollbackSecret")
              (Scenario.world Scenario.current_dict Scenario.master_dict)
              (Scenario.app_secret Scenario.current_dict)
              (mk_is_Some _ _ eq_refl) eq_refl) as [_ Henabled].
  destruct (Henabled ltac:(discriminate)) as [_ Hstaged].
  destruct (Hstaged ["AWSPENDING"] eq_refl) as (_ & _ & Hpending).
  destruct Hpending as (_ & _ & _ & _ & Hinvalid).
  - by apply (bool_decide_unpack _).
  - by apply (bool_decide_unpack _).
  - apply Hinvalid. by apply (bool_decide_unpack _).
Defined.

(** C9, as stated, fails: the rotation-enabled check comes first, so a
    request whose token is labelled AWSCURRENT on a secret with rotation
    disabled does not return success; it raises the not-enabled error. *)
Lemma lambda_handler_current_token_disabled :
  (∃ sec stages,
     secrets Cases.disabled !! "arn:app" = Some sec
     ∧ dict_get "v1" (VersionIdsToStages sec) = Some stages
     ∧ "AWSCURRENT" ∈ stages)
  ∧ lambda_handler (Scenario.env (λ _, false) (Ok []))
      {| SecretId := "arn:app"; ClientRequestToken := "v1";
         Step := "rollbackSecret" |}
      Cases.disabled
    = (Raise (ValueError "Secret arn:app is not enabled for rotation"),
       after Cases.disabled [DescribeSecret "arn:app"])
  ∧ ¬ (∀ env event w sec stages,
         is_Some (environ env !! "SECRETS_MANAGER_ENDPOINT") →
         secrets w !! SecretId event = Some sec →
         dict_get (ClientRequestToken event) (VersionIdsToStages sec)
         = Some stages →
         "AWSCURRENT" ∈ stages →
         (lambda_handler env event w).1 = Ok tt).
Proof.
  split; [|split].
  - eexists _, ["AWSCURRENT"]. split; [reflexivity|]. split; [reflexivity|].
    apply list_elem_of_here.
  - reflexivity.
  - intros Hclaim.
    specialize (Hclaim (Scenario.env (λ _, false) (Ok []))
                  {| SecretId := "arn:app"; ClientRequestToken := "v1";
                     Step := "rollbackSecret" |}
                  Cases.disabled _ ["AWSCURRENT"]
                  (mk_is_Some _ _ eq_refl) eq_refl eq_refl
                  (list_elem_of_here _ _)).
    discriminate Hclaim.
Qed.

(** C9, amended. A request whose token is labelled AWSCURRENT, on a secret
    whose rotation is not explicitly disabled, returns success after the
    one read of the metadata, whatever its step: no step handler runs and
    no invalid-step error is raised, even for a step that is no step. *)
Theorem lambda_handler_current_token_returns env arn token w sec stages :
  is_Some (environ env !! "SECRETS_MANAGER_ENDPOINT") →
  secrets w !! arn = Some sec →
  RotationEnabled sec ≠ Some false →
  dict_get token (VersionIdsToStages sec) = Some stages →
  "AWSCURRENT" ∈ stages →
  ∀ step,
    lambda_handler env
      {| SecretId := arn; ClientRequestToken := token; Step := step |} w
    = (Ok tt, after w [DescribeSecret arn]).
Proof.
  intros Hend Hsec Hen Hst Hcur%contains_spec step.
  rewrite (lambda_handler_after_describe env
             {| SecretId := arn; ClientRequestToken := token; Step := step |}
             w sec Hend Hsec).
  simpl. rewrite Hst, Hcur. by destruct (RotationEnabled sec) as [[]|].
Qed.

Lemma lambda_handler_current_token_returns_witness :
  lambda_handler (Scenario.env (λ _, false) (Ok []))
    {| SecretId := "arn:app"; ClientRequestToken := "v1"; Step := "rollbackSecret" |}
    (Scenario.world Scenario.current_dict Scenario.master_dict)
  = (Ok tt,
     after (Scenario.world Scenario.current_dict Scenario.master_dict)
       [DescribeSecret "arn:app"]).
Proof.
  apply (lambda_handler_current_token_returns (Scenario.env (λ _, false) (Ok []))
           "arn:app" "v1"
           (Scenario.world Scenario.current_dict Scenario.master_dict)
           (Scenario.app_secret Scenario.current_dict) ["AWSCURRENT"]
           (mk_is_Some _ _ eq_refl) eq_refl).
  - simpl. discriminate.
  - reflexivity.
  - by apply (bool_decide_unpack _).
Defined.


(** * The replica topology check *)

(** [host.split(".")[0]] is what precedes the first dot of [host]: it has
    no dot and is all of [host] or is followed by a dot in it. *)
Lemma split_0_dot host :
  PyStr.contains_char "." (PyStr.split_0 "." host) = false
  ∧ (host = PyStr.split_0 "." host
     ∨ ∃ rest, host = PyStr.split_0 "." host +:+ "." +:+ rest).
Proof.
  induction host as [|c r [IHc IHs]].
  - split; [done | by left].
  - cbn [PyStr.split_0 String.prefix].
    destruct (ascii_dec "." c) as [<-|Hne].
    + destruct r; (split; [done|]); right; by eexists.
    + cbn [PyStr.contains_char]. split.
      * rewrite IHc, orb_false_r. apply Ascii.eqb_neq. congruence.
      * destruct IHs as [IH|[rest IH]].
        -- left. by rewrite <- IH.
        -- right. exists rest. by rewrite IH at 1.
Qed.

Lemma is_rds_replica_database_run env replica_dict master_dict
    replica_host master_host w :
  replica_dict !! "host" = Some (JStr replica_host) →
  master_dict !! "host" = Some (JStr master_host) →
  is_rds_replica_database env replica_dict master_dict w
  = (Ok match rds_describe_db_instances env (trace w)
                (PyStr.split_0 "." replica_host) with
        | Raise _ | Ok [] => false
        | Ok (current_instance :: _) =>
            bool_decide
              (Some (PyStr.split_0 "." master_host)
               = ReadReplicaSourceDBInstanceIdentifier current_instance)
        end,
     after w [DescribeDBInstances (PyStr.split_0 "." replica_host)]).
Proof.
  intros Hr Hm. unfold is_rds_replica_database. run. rewrite Hr, Hm.
  by destruct (rds_describe_db_instances _ _ _) as [[|i rest]|e].
Qed.

(** C4. The replica check takes as instance identifiers what precedes the
    first dot of each host, asks the inventory once about the candidate's,
    answers false when the inventory raises or returns no instance, and
    answers true exactly when the first instance returned has the master's
    identifier as its replication source. *)
Theorem is_rds_replica_database_spec env replica_dict master_dict
    replica_host master_host w :
  replica_dict !! "host" = Some (JStr replica_host) →
  master_dict !! "host" = Some (JStr master_host) →
  let replica_id := PyStr.split_0 "." replica_host in
  let master_id := PyStr.split_0 "." master_host in
  let answer := rds_describe_db_instances env (trace w) replica_id in
  (∀ host,
     PyStr.contains_char "." (PyStr.split_0 "." host) = false
     ∧ (host = PyStr.split_0 "." host
        ∨ ∃ rest, host = PyStr.split_0 "." host +:+ "." +:+ rest))
  ∧ ∃ verdict,
      is_rds_replica_database env replica_dict master_dict w
      = (Ok verdict, after w [DescribeDBInstances replica_id])
      ∧ ((∃ e, answer = Raise e) → verdict = false)
      ∧ (answer = Ok [] → verdict = false)
      ∧ (verdict = true ↔ confirms_replica answer master_id).
Proof.
  intros Hr Hm replica_id master_id answer.
  split; [apply split_0_dot|].
  rewrite (is_rds_replica_database_run _ _ _ _ _ _ Hr Hm).
  fold replica_id master_id answer. eexists. split; [done|].
  unfold confirms_replica.
  destruct answer as [[|inst rest]|e].
  - split; [done|]. split; [done|]. split; [done|].
    by intros (? & ? & ? & _).
  - split; [by intros [? ?]|]. split; [done|].
    rewrite bool_decide_eq_true. split.
    + intros Heq. by exists inst, rest.
    + by intros (? & ? & [= <- _] & ->).
  - split; [done|]. split; [done|]. split; [done|].
    by intros (? & ? & ? & _).
Qed.

Lemma is_rds_replica_database_spec_witness :
  is_rds_replica_database
    (Scenario.env (λ _, false)
       (Ok [ {| ReadReplicaSourceDBInstanceIdentifier := Some "primary" |} ]))
    Scenario.current_dict Scenario.far_master_dict
    (Scenario.world Scenario.current_dict Scenario.far_master_dict)
  = (Ok true,
     after (Scenario.world Scenario.current_dict Scenario.far_master_dict)
       [DescribeDBInstances "db1"]).
Proof.
  destruct (is_rds_replica_database_spec
              (Scenario.env (λ _, false)
                 (Ok [ {| ReadReplicaSourceDBInstanceIdentifier := Some "primary" |} ]))
              Scenario.current_dict Scenario.far_master_dict
              "db1.cluster.example.com" "primary.cluster.example.com"
              (Scenario.world Scenario.current_dict Scenario.far_master_dict)
              eq_refl eq_refl)
    as (_ & verdict & Hrun & _ & _ & Htrue).
  rewrite Hrun. f_equal. f_equal. apply Htrue.
  eexists _, _. split; reflexivity.
Defined.


(** * setSecret: grant replication *)

Lemma executes_ok_app env pre evs1 evs2 :
  executes_ok env pre (evs1 ++ evs2)
  = executes_ok env pre evs1 && executes_ok env (pre ++ evs1) evs2.
Proof.
  revert pre. induction evs1 as [|e evs1 IH]; intros pre; simpl.
  - by rewrite app_nil_r.
  - rewrite IH, <- app_assoc. simpl. by rewrite andb_assoc.
Qed.

Lemma replicate_grant_run env conn pending_dict row w :
  replicate_grant env conn pending_dict row w
  = match row with
    | [] => (Raise IndexError, w)
    | row_0 :: _ =>
        match pending_dict !! "username" with
        | None => (Raise (KeyError "username"), w)
        | Some username =>
            match pending_dict !! "password" with
            | None => (Raise (KeyError "password"), w)
            | Some password =>
                (match grant_statement conn username password row_0 with
                 | Execute c sql args => db_execute env (trace w) c sql args
                 | _ => Ok tt
                 end,
                 after w [grant_statement conn username password row_0])
            end
        end
    end.
Proof.
  unfold replicate_grant, execute. run.
  destruct row as [|row_0 rest]; [done|].
  destruct (pending_dict !! "username"); [|done].
  by destruct (pending_dict !! "password").
Qed.

(** The loop over the grant rows sends statements and nothing else; when
    it ends without an exception it has sent the statement of every row,
    in order, and the database accepted each. *)
Lemma for_each_replicate_grant env conn pending_dict rows w :
  ∃ r w' evs,
    for_each rows (replicate_grant env conn pending_dict) w = (r, w')
    ∧ secrets w' = secrets w
    ∧ trace w' = trace w ++ evs
    ∧ Forall (λ e, is_execute e = true) evs
    ∧ (is_ok r = true →
       executes_ok env (trace w) evs = true
       ∧ Forall2 (replicated conn pending_dict) rows evs).
Proof.
  revert w. induction rows as [|row rows IH]; intros w.
  - exists (Ok tt), w, []. simpl. rewrite app_nil_r.
    repeat split; by constructor.
  - cbn [for_each]. unfold mbind, M_bind. rewrite replicate_grant_run.
    assert (∀ e, ∃ (r : result unit) w' evs,
              (Raise e, w) = (r, w') ∧ secrets w' = secrets w
              ∧ trace w' = trace w ++ evs
              ∧ Forall (λ e, is_execute e = true) evs
              ∧ (is_ok r = true →
                 executes_ok env (trace w) evs = true
                 ∧ Forall2 (replicated conn pending_dict) (row :: rows) evs))
      as Hraise.
    { intros e. exists (Raise e), w, []. rewrite app_nil_r.
      split; [done|]. split; [done|]. split; [done|].
      split; [by constructor | done]. }
    destruct row as [|row_0 rest]; [apply Hraise|].
    destruct (pending_dict !! "username") as [username|] eqn:Hu;
      [|apply Hraise].
    destruct (pending_dict !! "password") as [password|] eqn:Hp;
      [|apply Hraise].
    clear Hraise. cbn [grant_statement].
    destruct (db_execute env (trace w) conn _ _) as [[]|e] eqn:Hexec.
    + destruct (IH (after w [grant_statement conn username password row_0]))
        as (r & w' & evs & Hrun & Hsec & Htrace & Hexe & Hok).
      cbn [grant_statement] in Hrun. rewrite Hrun.
      exists r, w', (grant_statement conn username password row_0 :: evs).
      split; [done|]. split; [done|].
      split; [by rewrite Htrace; simpl; rewrite <- app_assoc|].
      split; [by constructor|].
      intros Hr. destruct (Hok Hr) as [Hall Hrows]. split.
      * cbn [executes_ok grant_statement]. rewrite Hexec. exact Hall.
      * constructor; [|done]. by exists row_0, rest, username, password.
    + eexists (Raise e), _, [grant_statement conn username password row_0].
      split; [done|]. split; [done|]. split; [done|].
      split; [by repeat constructor|]. done.
Qed.

(** Whatever the database answers, the block ends by closing [conn], after
    the calls [evs]. Either [evs] is the listing of the CURRENT user's
    grants, the rewritten statement of every row in order, each accepted by
    the database, and then the one commit, whose outcome is the block's; or
    the block raises and [evs] holds no commit. *)
Lemma replicate_grants_outcomes env conn current_dict pending_dict w :
  ∃ r w' evs,
    replicate_grants env conn current_dict pending_dict w = (r, w')
    ∧ secrets w' = secrets w
    ∧ trace w' = trace w ++ evs ++ [Close conn]
    ∧ ((∃ username stmts,
          current_dict !! "username" = Some username
          ∧ evs = Execute conn "SHOW GRANTS FOR %s" [username]
                  :: Fetchall conn :: stmts ++ [Commit conn]
          ∧ Forall (λ e, is_execute e = true) stmts
          ∧ Forall2 (replicated conn pending_dict)
              (db_fetchall env
                 (trace w ++ [Execute conn "SHOW GRANTS FOR %s" [username]])
                 conn)
              stmts
          ∧ executes_ok env (trace w) evs = true
          ∧ r = db_commit env
                  (trace w ++ Execute conn "SHOW GRANTS FOR %s" [username]
                           :: Fetchall conn :: stmts)
                  conn)
       ∨ (Forall (λ e, is_commit conn e = false) evs ∧ is_ok r = false))
    ∧ (executes_ok env (trace w) evs = false →
       Forall (λ e, is_commit conn e = false) evs ∧ is_ok r = false).
Proof.
  unfold replicate_grants, try_finally, close, execute, fetchall, commit.
  run.
  destruct (current_dict !! "username") as [username|] eqn:Hu; cycle 1.
  { exists (Raise (KeyError "username")), (after w [Close conn]), [].
    repeat split; try done. right. by split. }
  set (show := Execute conn "SHOW GRANTS FOR %s" [username]).
  destruct (db_execute env (trace w) conn _ _) as [[]|e] eqn:Hshow; cycle 1.
  { eexists (Raise e), _, [show]. cbn [secrets trace].
    split; [done|]. split; [done|].
    split; [by rewrite <- app_assoc|].
    assert (Forall (λ e, is_commit conn e = false) [show]) by by repeat constructor.
    split; [right; by split | by split]. }
  cbn [secrets trace].
  destruct (for_each_replicate_grant env conn pending_dict
              (db_fetchall env (trace w ++ [show]) conn)
              {| secrets := secrets w;
                 trace := (trace w ++ [show]) ++ [Fetchall conn] |})
    as (r1 & w1 & stmts & Hloop & Hsec & Htrace & Hexe & Hok).
  rewrite Hloop. cbn [secrets trace] in Hsec, Htrace, Hok.
  assert (Forall (λ e, is_commit conn e = false) stmts) as Hnocommit.
  { eapply Forall_impl; [exact Hexe|]. by intros []. }
  destruct r1 as [[]|e].
  - (* every row went through: the commit *)
    destruct (Hok eq_refl) as [Hall Hrows].
    assert (executes_ok env (trace w) (show :: Fetchall conn :: stmts ++ [Commit conn])
            = true) as Hgood.
    { cbn [executes_ok show]. rewrite Hshow. cbn [is_ok andb].
      rewrite executes_ok_app, Hall. done. }
    assert (trace w1 = trace w ++ show :: Fetchall conn :: stmts) as Htrace'.
    { rewrite Htrace, <- !app_assoc. done. }
    eexists (db_commit env (trace w1) conn), _,
      (show :: Fetchall conn :: stmts ++ [Commit conn]).
    split.
    { by destruct (db_commit env (trace w1) conn) as [[]|e]. }
    split.
    { by destruct (db_commit env (trace w1) conn) as [[]|e]. }
    split.
    { destruct (db_commit env (trace w1) conn) as [[]|e]; cbn [trace];
        rewrite Htrace'; rewrite <- ?app_assoc; simpl;
        by rewrite <- ?app_assoc. }
    split.
    + left. exists username, stmts. rewrite Htrace'. done.
    + by rewrite Hgood.
  - (* a row failed: no commit *)
    eexists (Raise e), _, (show :: Fetchall conn :: stmts).
    split; [done|]. split; [done|].
    split.
    { cbn [trace]. rewrite Htrace. by rewrite <- !app_assoc. }
    assert (Forall (λ e, is_commit conn e = false)
              (show :: Fetchall conn :: stmts)) by by repeat constructor.
    split; [right; by split | by split].
Qed.

(** When the database accepts the statement of every row, the loop sends
    them all and returns. *)
Lemma for_each_replicate_grant_accepted env conn pending_dict rows stmts w :
  Forall2 (replicated conn pending_dict) rows stmts →
  executes_ok env (trace w) stmts = true →
  ∃ w',
    for_each rows (replicate_grant env conn pending_dict) w = (Ok tt, w')
    ∧ secrets w' = secrets w
    ∧ trace w' = trace w ++ stmts.
Proof.
  intros Hrows. revert w.
  induction Hrows as [|row e rows stmts Hrow _ IH]; intros w Hok.
  - exists w. by rewrite app_nil_r.
  - destruct Hrow as (row_0 & rest & username & password & -> & Hu & Hp & ->).
    cbn [executes_ok grant_statement] in Hok.
    apply andb_true_iff in Hok as [Hexec Hok].
    destruct (IH (after w [grant_statement conn username password row_0]) Hok)
      as (w' & Hrun & Hsec & Htrace).
    exists w'. cbn [for_each]. unfold mbind, M_bind.
    rewrite replicate_grant_run, Hu, Hp. cbn [grant_statement].
    destruct (db_execute env (trace w) conn _ _) as [[]|]; [|done].
    cbn [grant_statement] in Hrun. rewrite Hrun.
    split; [done|]. split; [done|].
    rewrite Htrace. cbn [after trace grant_statement]. by rewrite <- app_assoc.
Qed.

(** When the database accepts the listing and the statement of every row,
    the block sends them, commits once and closes. *)
Lemma replicate_grants_accepted env conn current_dict pending_dict w
    username stmts :
  let show := Execute conn "SHOW GRANTS FOR %s" [username] in
  current_dict !! "username" = Some username →
  Forall2 (replicated conn pending_dict)
    (db_fetchall env (trace w ++ [show]) conn) stmts →
  executes_ok env (trace w) (show :: Fetchall conn :: stmts) = true →
  replicate_grants env conn current_dict pending_dict w
  = (db_commit env (trace w ++ show :: Fetchall conn :: stmts) conn,
     after w (show :: Fetchall conn :: stmts ++ [Commit conn; Close conn])).
Proof.
  intros show Hu Hrows Hok. cbn [executes_ok show] in Hok.
  apply andb_true_iff in Hok as [Hshow Hok]. cbn [andb] in Hok.
  destruct (for_each_replicate_grant_accepted env conn pending_dict _ stmts
              {| secrets := secrets w;
                 trace := (trace w ++ [show]) ++ [Fetchall conn] |}
              Hrows Hok) as (w1 & Hloop & Hsec & Htrace).
  cbn [secrets trace] in Hsec, Htrace.
  assert (trace w1 = trace w ++ show :: Fetchall conn :: stmts) as Htrace'.
  { rewrite Htrace, <- !app_assoc. done. }
  unfold replicate_grants, try_finally, close, execute, fetchall, commit.
  run. rewrite Hu. fold show.
  destruct (db_execute env (trace w) conn _ _) as [[]|]; [|done].
  cbn [secrets trace]. rewrite Hloop. unfold after.
  destruct (db_commit env (trace w1) conn) as [[]|e] eqn:Hcommit;
    cbn [secrets trace]; rewrite <- Htrace', Hcommit, Hsec;
    do 2 f_equal; rewrite Htrace'; rewrite <- ?app_assoc; simpl;
    by rewrite <- ?app_assoc.
Qed.

(** C2. The grant replication of setSecret on the master connection
    [conn]. When the database accepts the listing of the CURRENT user's
    grants and the rewritten statement of every row, the block sends them
    in order, then issues the one commit, whose outcome is the block's,
    then closes [conn]. And whatever the database answers, the block ends
    by closing [conn], after the calls [evs]: either [evs] is that
    accepted sequence followed by the one commit, or the block raises and
    [evs] holds no commit; a statement the database rejects leaves no
    commit. *)
Theorem replicate_grants_commits_once env conn current_dict pending_dict w :
  (∀ username stmts,
     let show := Execute conn "SHOW GRANTS FOR %s" [username] in
     current_dict !! "username" = Some username →
     Forall2 (replicated conn pending_dict)
       (db_fetchall env (trace w ++ [show]) conn) stmts →
     executes_ok env (trace w) (show :: Fetchall conn :: stmts) = true →
     replicate_grants env conn current_dict pending_dict w
     = (db_commit env (trace w ++ show :: Fetchall conn :: stmts) conn,
        after w (show :: Fetchall conn :: stmts ++ [Commit conn; Close conn])))
  ∧ ∃ r w' evs,
      replicate_grants env conn current_dict pending_dict w = (r, w')
      ∧ secrets w' = secrets w
      ∧ trace w' = trace w ++ evs ++ [Close conn]
      ∧ ((∃ username stmts,
            current_dict !! "username" = Some username
            ∧ evs = Execute conn "SHOW GRANTS FOR %s" [username]
                    :: Fetchall conn :: stmts ++ [Commit conn]
            ∧ Forall (λ e, is_execute e = true) stmts
            ∧ Forall2 (replicated conn pending_dict)
                (db_fetchall env
                   (trace w ++ [Execute conn "SHOW GRANTS FOR %s" [username]])
                   conn)
                stmts
            ∧ executes_ok env (trace w) evs = true
            ∧ r = db_commit env
                    (trace w ++ Execute conn "SHOW GRANTS FOR %s" [username]
                             :: Fetchall conn :: stmts)
                    conn)
         ∨ (Forall (λ e, is_commit conn e = false) evs ∧ is_ok r = false))
      ∧ (executes_ok env (trace w) evs = false →
         Forall (λ e, is_commit conn e = false) evs ∧ is_ok r = false).
Proof.
  split.
  - intros username stmts. apply replicate_grants_accepted.
  - apply replicate_grants_outcomes.
Qed.

Lemma replicate_grants_commits_once_witness :
  (∃ w',
     replicate_grants (Scenario.env (λ _, false) (Ok [])) 4
       Scenario.current_dict Scenario.pending_dict
       (Scenario.staged_world Scenario.master_dict)
     = (Ok tt, w')
     ∧ last (trace w') = Some (Close 4)
     ∧ length (filter (λ e, is_commit 4 e = true) (trace w')) = 1)
  ∧ ∃ w' evs,
      replicate_grants
        (Scenario.env (String.prefix "GRANT SELECT") (Ok [])) 4
        Scenario.current_dict Scenario.pending_dict
        (Scenario.staged_world Scenario.master_dict)
      = (Raise OperationalError, w')
      ∧ trace w' = evs ++ [Close 4]
      ∧ Forall (λ e, is_commit 4 e = false) evs.
Proof.
  pose (w := Scenario.staged_world Scenario.master_dict).
  pose (grant_1 :=
    Execute 4 "GRANT USAGE ON *.* TO %s IDENTIFIED BY %s"
      [JStr "app_user_clone"; JStr "n3w-Passw0rd"]).
  pose (grant_2 :=
    Execute 4 "GRANT SELECT ON `shop`.* TO %s IDENTIFIED BY %s"
      [JStr "app_user_clone"; JStr "n3w-Passw0rd"]).
  split.
  - eexists. split.
    + refine (proj1 (replicate_grants_commits_once
                (Scenario.env (λ _, false) (Ok [])) 4
                Scenario.current_dict Scenario.pending_dict w)
                (JStr "app_user") [grant_1; grant_2] eq_refl _ eq_refl).
      repeat constructor.
      * by exists "GRANT USAGE ON *.* TO 'app_user'@'%' IDENTIFIED BY PASSWORD 'x'",
          [], (JStr "app_user_clone"), (JStr "n3w-Passw0rd").
      * by exists "GRANT SELECT ON `shop`.* TO 'app_user'@'%'",
          [], (JStr "app_user_clone"), (JStr "n3w-Passw0rd").
    + split; reflexivity.
  - pose (env := Scenario.env (String.prefix "GRANT SELECT") (Ok [])).
    pose (sent :=
      [Execute 4 "SHOW GRANTS FOR %s" [JStr "app_user"]; Fetchall 4;
       grant_1; grant_2]).
    assert (replicate_grants env 4 Scenario.current_dict Scenario.pending_dict w
            = (Raise OperationalError, after w (sent ++ [Close 4]))) as Hrun0
      by reflexivity.
    destruct (proj2 (replicate_grants_commits_once env 4
                Scenario.current_dict Scenario.pending_dict w))
      as (r & w' & evs & Hrun & _ & Htrace & _ & Hfail).
    rewrite Hrun0 in Hrun. injection Hrun as <- <-.
    apply (app_inj_tail sent evs) in Htrace as [<- _].
    exists (after w (sent ++ [Close 4])), sent.
    split; [exact Hrun0|]. split; [reflexivity|].
    apply Hfail. reflexivity.
Defined.

(** * setSecret: the master-host check *)

Lemma quiet_get_connection env (P : event → Prop) secret_dict :
  (∀ args, P (Connect args)) →
  keeps (quiet P) (get_connection env secret_dict).
Proof.
  intros HP. unfold get_connection, connect, py_int.
  keeps_step; [repeat keeps_step|].
  apply keeps_try_except; keeps_order.
  - repeat keeps_step. apply quiet_emit, HP.
  - intros e hm He. destruct e; try discriminate He.
    injection He as <-. keeps_step.
  - intros c. keeps_step.
Qed.

Lemma not_confirmed_error e master_id : ¬ confirms_replica (Raise e) master_id.
Proof. by intros (? & ? & ? & _). Qed.

Lemma not_confirmed_empty master_id : ¬ confirms_replica (Ok []) master_id.
Proof. by intros (? & ? & ? & _). Qed.

(** C3. A run of setSecret that reaches the master-host check (the PENDING
    login fails, the PENDING user is the alternate of the CURRENT one on
    the same host, the CURRENT login succeeds and the master secret is
    read) with the CURRENT host different from the master's and an
    inventory answer that does not confirm the replica relation, an error
    and an empty answer included, raises the untrusted-host error. It has
    then sent no statement and no commit to the database, and has left the
    store as it was. *)
Theorem set_secret_untrusted_host env arn token w current_dict pending_dict
    master_dict w1 w2 w3 conn w4 w5 username alt current_host master_arn
    master_host :
  get_secret_dict arn "AWSCURRENT" None w = (Ok current_dict, w1) →
  get_secret_dict arn "AWSPENDING" (Some token) w1 = (Ok pending_dict, w2) →
  get_connection env pending_dict w2 = (Ok None, w3) →
  current_dict !! "username" = Some (JStr username) →
  get_alt_username username = Ok alt →
  pending_dict !! "username" = Some (JStr alt) →
  current_dict !! "host" = Some (JStr current_host) →
  pending_dict !! "host" = Some (JStr current_host) →
  get_connection env current_dict w3 = (Ok (Some conn), w4) →
  current_dict !! "masterarn" = Some (JStr master_arn) →
  get_secret_dict master_arn "AWSCURRENT" None (after w4 [Close conn])
  = (Ok master_dict, w5) →
  master_dict !! "host" = Some (JStr master_host) →
  current_host ≠ master_host →
  ¬ confirms_replica
      (rds_describe_db_instances env (trace w5) (PyStr.split_0 "." current_host))
      (PyStr.split_0 "." master_host) →
  (∀ e master_id, ¬ confirms_replica (Raise e) master_id)
  ∧ (∀ master_id, ¬ confirms_replica (Ok []) master_id)
  ∧ set_secret env arn token w
    = (Raise (ValueError ("Current database host " +:+ current_host
                          +:+ " is not the same host as/rds replica of master "
                          +:+ master_host)),
       after w5 [DescribeDBInstances (PyStr.split_0 "." current_host)])
  ∧ quiet (λ e, is_db_write e = false) w
      (after w5 [DescribeDBInstances (PyStr.split_0 "." current_host)]).
Proof.
  intros Hcur Hpend Hlogin1 Hu Halt Hpu Hch Hph Hlogin2 Hma Hmaster Hmh Hne
    Hnot.
  split; [apply not_confirmed_error|]. split; [apply not_confirmed_empty|].
  split.
  - unfold set_secret.
    rewrite (bind_ok _ _ _ _ _ Hcur), (bind_ok _ _ _ _ _ Hpend),
      (bind_ok _ _ _ _ _ Hlogin1).
    rewrite (bind_ok _ _ _ _ _ (getitem_ok _ _ _ _ Hu)).
    assert ((as_str (JStr username) ≫= λ u, lift (get_alt_username u)) w3
            = (Ok alt, w3)) as Hstep by (run; by rewrite Halt).
    rewrite (bind_ok _ _ _ _ _ Hstep). clear Hstep.
    rewrite (bind_ok _ _ _ _ _ (getitem_ok _ _ _ _ Hpu)).
    rewrite bool_decide_eq_false_2 by (by intros []).
    rewrite (bind_ok _ _ w3 tt w3) by done.
    rewrite (bind_ok _ _ _ _ _ (getitem_ok _ _ _ _ Hch)).
    rewrite (bind_ok _ _ _ _ _ (getitem_ok _ _ _ _ Hph)).
    rewrite bool_decide_eq_false_2 by (by intros []).
    rewrite (bind_ok _ _ w3 tt w3) by done.
    rewrite (bind_ok _ _ _ _ _ Hlogin2).
    rewrite (bind_ok _ _ w4 tt (after w4 [Close conn])) by done.
    rewrite (bind_ok _ _ _ _ _ (getitem_ok _ _ _ _ Hma)).
    cbn [py_str].
    rewrite (bind_ok _ _ _ _ _ Hmaster).
    rewrite (bind_ok _ _ _ _ _ (getitem_ok _ _ _ _ Hch)).
    rewrite (bind_ok _ _ _ _ _ (getitem_ok _ _ _ _ Hmh)).
    rewrite bool_decide_eq_true_2 by congruence.
    unfold mbind at 1, M_bind at 1. unfold mbind at 1, M_bind at 1.
    rewrite (is_rds_replica_database_run _ _ _ _ _ _ Hch Hmh).
    destruct (rds_describe_db_instances _ _ _) as [[|inst rest]|e];
      try done.
    case_bool_decide as Hsrc; [|done].
    exfalso. apply Hnot. by exists inst, rest.
  - pose proof (λ P HP, keeps_run _ _ _ _ _
                  (quiet_get_secret_dict P HP _ _ _) Hcur) as Hq1.
    pose proof (λ P HP, keeps_run _ _ _ _ _
                  (quiet_get_secret_dict P HP _ _ _) Hpend) as Hq2.
    pose proof (λ P HP, keeps_run _ _ _ _ _
                  (quiet_get_connection env P _ HP) Hlogin1) as Hq3.
    pose proof (λ P HP, keeps_run _ _ _ _ _
                  (quiet_get_connection env P _ HP) Hlogin2) as Hq4.
    pose proof (λ P HP, keeps_run _ _ _ _ _
                  (quiet_get_secret_dict P HP _ _ _) Hmaster) as Hq5.
    set (P := λ e, is_db_write e = false).
    assert (∀ e, is_store_read e = true → P e) as Hread by by intros [].
    assert (∀ args, P (Connect args)) as Hconn by done.
    etrans; [exact (Hq1 P Hread)|]. etrans; [exact (Hq2 P Hread)|].
    etrans; [exact (Hq3 P Hconn)|]. etrans; [exact (Hq4 P Hconn)|].
    etrans; [apply (quiet_emit P (Close conn)); done|].
    etrans; [exact (Hq5 P Hread)|].
    apply (quiet_emit P (DescribeDBInstances _)). done.
Qed.


Lemma set_secret_untrusted_host_witness :
  ∃ w',
    set_secret (Scenario.env (λ _, false) (Raise (ClientError "AccessDenied")))
      "arn:app" "v2" (Scenario.staged_world Scenario.far_master_dict)
    = (Raise (ValueError "Current database host db1.cluster.example.com is not the same host as/rds replica of master primary.cluster.example.com"),
       w')
    ∧ quiet (λ e, is_db_write e = false)
        (Scenario.staged_world Scenario.far_master_dict) w'.
Proof.
  pose (env := Scenario.env (λ _, false) (Raise (ClientError "AccessDenied"))).
  pose (w := Scenario.staged_world Scenario.far_master_dict).
  pose (w1 := after w [GetSecretValue "arn:app" None "AWSCURRENT"]).
  pose (w2 := after w1 [GetSecretValue "arn:app" (Some "v2") "AWSPENDING"]).
  pose (w3 := after w2 [Connect (Scenario.connect_args "app_user_clone" "n3w-Passw0rd")]).
  pose (w4 := after w3 [Connect (Scenario.connect_args "app_user" "old-password")]).
  pose (w5 := after (after w4 [Close 3])
                [GetSecretValue "arn:master" None "AWSCURRENT"]).
  eexists.
  refine (proj2 (proj2
    (set_secret_untrusted_host env "arn:app" "v2" w
       Scenario.current_dict Scenario.pending_dict Scenario.far_master_dict
       w1 w2 w3 3 w4 w5 "app_user" "app_user_clone" "db1.cluster.example.com"
       "arn:master" "primary.cluster.example.com"
       _ _ _ _ _ _ _ _ _ _ _ _ _ _))).
  all: try reflexivity.
  - discriminate.
  - apply not_confirmed_error.
Defined.

(** * finishSecret *)

Lemma dict_get_elem_of {V} k (v : V) d : dict_get k d = Some v → (k, v) ∈ d.
Proof.
  induction d as [|[k' v'] d IH]; simpl; [done|].
  destruct (decide (k' = k)) as [->|_].
  - intros [= ->]. by left.
  - intros H. right. by apply IH.
Qed.

Lemma elem_of_dict_get {V} k (v : V) d :
  NoDup d.*1 → (k, v) ∈ d → dict_get k d = Some v.
Proof.
  induction d as [|[k' v'] d IH]; simpl.
  - by intros _ ?%elem_of_nil.
  - intros [Hk' Hnd]%NoDup_cons [[= -> ->]|Hin]%elem_of_cons.
    + by rewrite decide_True.
    + rewrite decide_False; [by apply IH|].
      intros ->. apply Hk'. apply list_elem_of_fmap. by exists (k, v).
Qed.

Lemma dict_get_relabel f k vs :
  dict_get k (relabel f vs) = f k <$> dict_get k vs.
Proof.
  induction vs as [|[k' l] vs IH]; simpl; [done|].
  destruct (decide (k' = k)) as [->|_]; [done | apply IH].
Qed.

Lemma relabel_relabel f g vs :
  relabel g (relabel f vs) = relabel (λ v l, g v (f v l)) vs.
Proof. unfold relabel. rewrite map_map. done. Qed.

(** Counting the versions that carry a label after a relabelling. *)
Lemma count_stage_relabel stage f (Q : string * list string → Prop)
    `{!∀ v, Decision (Q v)} vs :
  (∀ v, v ∈ vs → stage ∈ f v.1 v.2 ↔ Q v) →
  count_stage stage (relabel f vs) = length (filter Q vs).
Proof.
  unfold count_stage. induction vs as [|v vs IH]; intros HQ; [done|].
  cbn [relabel map]. rewrite !filter_cons. cbn [fst snd].
  specialize (IH (λ v' Hv', HQ v' (list_elem_of_further _ _ _ Hv'))).
  unfold relabel in IH.
  pose proof (HQ v (list_elem_of_here _ _)) as Hv.
  destruct (decide (stage ∈ f v.1 v.2)), (decide (Q v)); simpl;
    rewrite ?IH; tauto.
Qed.

Lemma filter_key_absent token (vs : list (string * list string)) :
  token ∉ vs.*1 → filter (λ v, v.1 = token) vs = [].
Proof.
  induction vs as [|[k l] vs IH]; [done|].
  rewrite fmap_cons, not_elem_of_cons. simpl. intros [Hne Hnin].
  rewrite filter_cons. simpl. rewrite decide_False by done. by apply IH.
Qed.

Lemma count_key token (vs : list (string * list string)) :
  NoDup vs.*1 → is_Some (dict_get token vs) →
  length (filter (λ v, v.1 = token) vs) = 1.
Proof.
  induction vs as [|[k l] vs IH]; simpl.
  - by intros _ [? ?].
  - intros [Hk Hnd]%NoDup_cons Hget. rewrite filter_cons. simpl.
    destruct (decide (k = token)) as [->|Hne].
    + simpl. by rewrite filter_key_absent.
    + by apply IH.
Qed.

Lemma count_stage_zero stage vs v :
  count_stage stage vs = 0 → v ∈ vs → stage ∉ v.2.
Proof.
  unfold count_stage. intros Hz Hin Hst.
  apply length_zero_iff_nil in Hz.
  assert (v ∈ filter (λ v, stage ∈ v.2) vs) as Hv
    by by apply list_elem_of_filter.
  rewrite Hz in Hv. by apply elem_of_nil in Hv.
Qed.

(** With one version carrying a label, any two entries that carry it are
    the same entry. *)
Lemma count_stage_one_unique stage vs v1 v2 :
  count_stage stage vs = 1 →
  v1 ∈ vs → v2 ∈ vs → stage ∈ v1.2 → stage ∈ v2.2 → v1 = v2.
Proof.
  unfold count_stage. induction vs as [|v vs IH]; [by intros _ ?%elem_of_nil|].
  rewrite filter_cons. intros Hc H1 H2 Hs1 Hs2.
  destruct (decide (stage ∈ v.2)) as [Hv|Hv]; simpl in Hc.
  - assert (count_stage stage vs = 0) as Hz by (unfold count_stage; lia).
    apply elem_of_cons in H1 as [->|H1], H2 as [->|H2]; try done.
    + by destruct (count_stage_zero _ _ _ Hz H2).
    + by destruct (count_stage_zero _ _ _ Hz H1).
    + by destruct (count_stage_zero _ _ _ Hz H1).
  - apply elem_of_cons in H1 as [->|H1]; [done|].
    apply elem_of_cons in H2 as [->|H2]; [done|].
    by apply IH.
Qed.

(** How the loop of [finish_secret] ends, in terms of the labels. *)
Lemma finish_loop_spec token vs :
  match finish_loop token vs with
  | Returned => ∃ l, (token, l) ∈ vs ∧ "AWSCURRENT" ∈ l
  | Fell (Some old) => old ≠ token ∧ ∃ l, (old, l) ∈ vs ∧ "AWSCURRENT" ∈ l
  | Fell None => count_stage "AWSCURRENT" vs = 0
  end.
Proof.
  induction vs as [|[k l] vs IH]; simpl; [done|].
  destruct (contains "AWSCURRENT" l) eqn:Hc.
  - apply contains_spec in Hc.
    destruct (decide (k = token)) as [->|Hne].
    + exists l. split; [by left | done].
    + split; [done|]. exists l. split; [by left | done].
  - apply contains_false in Hc.
    destruct (finish_loop token vs) as [|[old|]].
    + destruct IH as (l' & ? & ?). exists l'. split; [by right | done].
    + destruct IH as (? & l' & ? & ?). split; [done|].
      exists l'. split; [by right | done].
    + unfold count_stage in *. rewrite filter_cons. simpl.
      by rewrite decide_False.
Qed.

(** The label move leaves AWSCURRENT on the target version alone, when
    the version it is taken from was its only holder. *)
Lemma count_stage_move_label token old (vs : list (string * list string)) :
  NoDup vs.*1 → is_Some (dict_get token vs) → old ≠ token →
  (∀ v, v ∈ vs → "AWSCURRENT" ∈ v.2 → v.1 = old) →
  count_stage "AWSCURRENT" (move_label "AWSCURRENT" token old vs) = 1.
Proof.
  intros Hnd Htok Hne Honly. unfold move_label.
  rewrite decide_True by done. rewrite relabel_relabel.
  rewrite (count_stage_relabel _ _ (λ v, v.1 = token)); [by apply count_key|].
  intros [k l] Hin. simpl.
  specialize (Honly (k, l) Hin). simpl in Honly.
  repeat case_decide; subst;
    rewrite ?elem_of_add_label, ?elem_of_remove_label,
      ?elem_of_add_label, ?elem_of_remove_label;
    intuition congruence.
Qed.

(** C8. finishSecret on a store that holds the token's version and has
    AWSCURRENT on exactly one version, whatever the number of versions.
    If that version is the token's, it returns after the one read of the
    metadata. Otherwise it issues one label move, of AWSCURRENT from the
    old version to the token's, after which the token's version carries
    the label and the old one does not. Either way it returns, and exactly
    one version is labelled AWSCURRENT afterwards. *)
Theorem finish_secret_promotes arn token w sec stages :
  secrets w !! arn = Some sec →
  NoDup (VersionIdsToStages sec).*1 →
  count_stage "AWSCURRENT" (VersionIdsToStages sec) = 1 →
  dict_get token (VersionIdsToStages sec) = Some stages →
  ("AWSCURRENT" ∈ stages →
   finish_secret arn token w = (Ok tt, after w [DescribeSecret arn]))
  ∧ ("AWSCURRENT" ∉ stages →
     ∃ old old_stages w' sec',
       old ≠ token
       ∧ dict_get old (VersionIdsToStages sec) = Some old_stages
       ∧ "AWSCURRENT" ∈ old_stages
       ∧ finish_secret arn token w = (Ok tt, w')
       ∧ trace w' =
           trace w ++ [DescribeSecret arn;
                       UpdateSecretVersionStage arn "AWSCURRENT" token (Some old)]
       ∧ secrets w' = <[arn := sec']> (secrets w)
       ∧ SecretStrings sec' = SecretStrings sec
       ∧ (∃ l, dict_get token (VersionIdsToStages sec') = Some l
               ∧ "AWSCURRENT" ∈ l)
       ∧ (∃ l, dict_get old (VersionIdsToStages sec') = Some l
               ∧ "AWSCURRENT" ∉ l))
  ∧ ∃ w' sec',
      finish_secret arn token w = (Ok tt, w')
      ∧ secrets w' !! arn = Some sec'
      ∧ count_stage "AWSCURRENT" (VersionIdsToStages sec') = 1.
Proof.
  intros Hsec Hnd Hone Htok.
  pose proof (dict_get_elem_of _ _ _ Htok) as Htok_in.
  pose proof (finish_loop_spec token (VersionIdsToStages sec)) as Hloop.
  assert (finish_secret arn token w
          = match finish_loop token (VersionIdsToStages sec) with
            | Returned => (Ok tt, after w [DescribeSecret arn])
            | Fell current_version =>
                update_secret_version_stage arn "AWSCURRENT" token
                  current_version (after w [DescribeSecret arn])
            end) as Hrun.
  { unfold finish_secret.
    rewrite (bind_ok _ _ _ _ _ (describe_secret_run _ _ _ Hsec)). simpl.
    by destruct (finish_loop _ _). }
  rewrite Hrun. clear Hrun.
  destruct (finish_loop token (VersionIdsToStages sec)) as [|[old|]].
  - (* the loop returned: the token's version is the CURRENT one *)
    destruct Hloop as (l & Hin & Hl).
    rewrite (elem_of_dict_get _ _ _ Hnd Hin) in Htok. injection Htok as ->.
    split; [done|]. split; [done|].
    exists (after w [DescribeSecret arn]), sec. by split.
  - (* the loop broke at [old] *)
    destruct Hloop as (Hne & l & Hin & Hl).
    assert ("AWSCURRENT" ∉ stages) as Hnot.
    { intros Hst. apply Hne.
      by injection (count_stage_one_unique _ _ (old, l) (token, stages)
                      Hone Hin Htok_in Hl Hst). }
    pose proof (elem_of_dict_get _ _ _ Hnd Hin) as Hold.
    assert (∀ v, v ∈ VersionIdsToStages sec → "AWSCURRENT" ∈ v.2 → v.1 = old)
      as Honly.
    { intros v Hv Hst.
      by rewrite (count_stage_one_unique _ _ v (old, l) Hone Hv Hin Hst Hl). }
    set (sec' := {| RotationEnabled := RotationEnabled sec;
                    VersionIdsToStages :=
                      move_label "AWSCURRENT" token old (VersionIdsToStages sec);
                    SecretStrings := SecretStrings sec |}).
    assert (update_secret_version_stage arn "AWSCURRENT" token (Some old)
              (after w [DescribeSecret arn])
            = (Ok tt,
               {| secrets := <[arn := sec']> (secrets w);
                  trace := (trace w ++ [DescribeSecret arn])
                           ++ [UpdateSecretVersionStage arn "AWSCURRENT" token
                                 (Some old)] |})) as Hrun.
    { unfold update_secret_version_stage. run. simpl.
      rewrite Hsec, Htok, Hold.
      by rewrite (proj2 (contains_spec _ _) Hl). }
    rewrite Hrun. split; [done|]. split.
    + intros _. eexists old, l, _, sec'.
      split; [done|]. split; [done|]. split; [done|]. split; [done|].
      split; [by rewrite <- app_assoc|]. split; [done|]. split; [done|].
      unfold sec', move_label. cbn [VersionIdsToStages].
      rewrite decide_True by done.
      rewrite relabel_relabel, !dict_get_relabel, Htok, Hold. simpl.
      split; eexists; (split; [done|]); repeat case_decide; try congruence.
      * apply elem_of_remove_label. split; [done|].
        apply elem_of_add_label. by left.
      * intros [?|Hst]%elem_of_add_label; [done|].
        by apply elem_of_remove_label in Hst as [? _].
    + eexists _, sec'. split; [done|]. simpl.
      split; [by rewrite lookup_insert_eq|].
      apply count_stage_move_label; eauto.
  - (* no version is CURRENT: excluded by the count *)
    rewrite Hloop in Hone. discriminate Hone.
Qed.

Lemma finish_secret_promotes_witness :
  ∃ w' sec',
    finish_secret "arn:app" "v2" (Scenario.staged_world Scenario.master_dict)
    = (Ok tt, w')
    ∧ secrets w' !! "arn:app" = Some sec'
    ∧ count_stage "AWSCURRENT" (VersionIdsToStages sec') = 1.
Proof.
  apply (finish_secret_promotes "arn:app" "v2"
           (Scenario.staged_world Scenario.master_dict) _ ["AWSPENDING"]
           eq_refl).
  - simpl. repeat constructor; by apply (bool_decide_unpack _).
  - reflexivity.
  - reflexivity.
Defined.

(** * Further properties of the string primitives *)

Lemma prefix_nil_r sep : sep ≠ "" → String.prefix sep "" = false.
Proof. by destruct sep. Qed.

Lemma prefix_app_r a b c :
  String.prefix a b = true → String.prefix a (b +:+ c) = true.
Proof.
  revert b. induction a as [|x a IH]; intros b;
    [intros _; by destruct (b +:+ c)|].
  destruct b as [|y b]; [done|]. cbn [String.prefix].
  change (String y b +:+ c) with (String y (b +:+ c)). cbn [String.prefix].
  destruct (ascii_dec x y); [apply IH | done].
Qed.

(** Before the cut made by [split_0], the separator starts nowhere in
    [s]. *)
Lemma split_0_no_earlier sep s rest :
  s = PyStr.split_0 sep s +:+ rest →
  ∀ p q, PyStr.split_0 sep s = p +:+ q → q ≠ "" →
         String.prefix sep (q +:+ rest) = false.
Proof.
  revert rest. induction s as [|c r IH]; intros rest Hs p q Hpq Hq.
  - cbn [PyStr.split_0] in Hpq. destruct p, q; done.
  - cbn [PyStr.split_0] in Hs, Hpq.
    destruct (String.prefix sep (String c r)) eqn:Hpre.
    + destruct p, q; done.
    + change (String c (PyStr.split_0 sep r) +:+ rest)
        with (String c (PyStr.split_0 sep r +:+ rest)) in Hs.
      injection Hs as Hs. destruct p as [|c' p].
      * change ("" +:+ q) with q in Hpq. subst q.
        change (String c (PyStr.split_0 sep r) +:+ rest)
          with (String c (PyStr.split_0 sep r +:+ rest)).
        by rewrite <- Hs.
      * change (String c' p +:+ q) with (String c' (p +:+ q)) in Hpq.
        injection Hpq as _ Hpq. by apply (IH rest Hs p q).
Qed.

(** A cut before which the separator starts nowhere, and at which [s]
    ends or the separator starts, is the cut [split_0] makes. *)
Lemma split_0_unique sep a b :
  sep ≠ "" →
  b = "" ∨ String.prefix sep b = true →
  (∀ p q, a = p +:+ q → q ≠ "" → String.prefix sep (q +:+ b) = false) →
  PyStr.split_0 sep (a +:+ b) = a.
Proof.
  intros Hsep Hb. induction a as [|c a IH]; intros Hbefore.
  - change ("" +:+ b) with b. destruct b as [|c r]; [done|].
    cbn [PyStr.split_0]. destruct Hb as [?| ->]; done.
  - change (String c a +:+ b) with (String c (a +:+ b)).
    cbn [PyStr.split_0].
    change (String c (a +:+ b)) with (String c a +:+ b).
    rewrite (Hbefore "" (String c a)) by done.
    f_equal. apply IH. intros p q -> Hq.
    by apply (Hbefore (String c p) q).
Qed.

(** X1. [s.split(sep)[0]], for a non-empty separator, is the part of [s]
    before the first occurrence of [sep]: the separator does not occur in
    it; what follows it in [s] is empty when the separator does not occur
    in [s] and starts with the separator otherwise; and the separator
    starts at no earlier position of [s], also not one from which it would
    run over the cut. It is the only cut of [s] with these properties. *)
Theorem split_0_first_occurrence sep s :
  sep ≠ "" →
  str_in sep (PyStr.split_0 sep s) = false
  ∧ (∃ rest,
       s = PyStr.split_0 sep s +:+ rest
       ∧ (str_in sep s = false → rest = "")
       ∧ (str_in sep s = true → String.prefix sep rest = true)
       ∧ (∀ p q, PyStr.split_0 sep s = p +:+ q → q ≠ "" →
                 String.prefix sep (q +:+ rest) = false))
  ∧ (∀ a b,
       s = a +:+ b →
       b = "" ∨ String.prefix sep b = true →
       (∀ p q, a = p +:+ q → q ≠ "" → String.prefix sep (q +:+ b) = false) →
       PyStr.split_0 sep s = a).
Proof.
  intros Hsep. split; [|split].
  - induction s as [|c r IHin].
    + cbn [PyStr.split_0 str_in]. by rewrite prefix_nil_r.
    + cbn [PyStr.split_0].
      destruct (String.prefix sep (String c r)) eqn:Hp.
      * cbn [str_in]. by rewrite prefix_nil_r.
      * cbn [str_in]. rewrite IHin, orb_false_r.
        apply not_true_is_false. intros Hpre.
        assert (∃ rest, r = PyStr.split_0 sep r +:+ rest) as [rest Hr].
        { clear. induction r as [|c r [rest IH]]; [by exists ""|].
          cbn [PyStr.split_0].
          destruct (String.prefix sep (String c r)); [by eexists|].
          exists rest.
          change (String c (PyStr.split_0 sep r) +:+ rest)
            with (String c (PyStr.split_0 sep r +:+ rest)).
          by rewrite <- IH. }
        apply (prefix_app_r _ _ rest) in Hpre.
        change (String c (PyStr.split_0 sep r) +:+ rest)
          with (String c (PyStr.split_0 sep r +:+ rest)) in Hpre.
        rewrite <- Hr in Hpre. congruence.
  - assert (∃ rest,
              s = PyStr.split_0 sep s +:+ rest
              ∧ (str_in sep s = false → rest = "")
              ∧ (str_in sep s = true → String.prefix sep rest = true))
      as (rest & Hs & Hno & Hyes).
    { induction s as [|c r (rest & IHs & IHno & IHyes)].
      - cbn [PyStr.split_0 str_in]. rewrite prefix_nil_r by done.
        by exists "".
      - cbn [PyStr.split_0 str_in].
        destruct (String.prefix sep (String c r)) eqn:Hp.
        + exists (String c r). by repeat split.
        + cbn [orb]. exists rest. split; [|by split].
          change (String c (PyStr.split_0 sep r) +:+ rest)
            with (String c (PyStr.split_0 sep r +:+ rest)).
          by rewrite <- IHs. }
    exists rest. split; [done|]. split; [done|]. split; [done|].
    by apply split_0_no_earlier.
  - intros a b -> Hb Hbefore. by apply split_0_unique.
Qed.

Lemma split_0_first_occurrence_witness :
  str_in " TO " (PyStr.split_0 " TO " "GRANT SELECT ON `shop`.* TO 'app_user'@'%'")
  = false.
Proof.
  apply (proj1 (split_0_first_occurrence " TO "
                  "GRANT SELECT ON `shop`.* TO 'app_user'@'%'"
                  ltac:(discriminate))).
Defined.

Lemma get_alt_username_cases u v :
  get_alt_username u = Ok v →
  (PyStr.endswith u "_clone" = true ∧ u = v +:+ "_clone")
  ∨ (PyStr.endswith u "_clone" = false ∧ v = u +:+ "_clone"
     ∧ String.length v ≤ 80).
Proof.
  intros Huv. unfold get_alt_username in Huv. fold clone_suffix.
  destruct (PyStr.endswith u clone_suffix) eqn:Hs.
  - left. injection Huv as <-. split; [done|].
    by apply (PyStrFacts.endswith_true u clone_suffix).
  - right. destruct (Nat.ltb_spec 80 (String.length (u +:+ clone_suffix)));
      [done|].
    injection Huv as <-. done.
Qed.

Lemma get_alt_username_differs u v : get_alt_username u = Ok v → v ≠ u.
Proof.
  intros Huv ->.
  destruct (get_alt_username_cases _ _ Huv) as [[_ Heq]|(_ & Heq & _)];
    apply (f_equal String.length) in Heq;
    rewrite PyStrFacts.length_app in Heq; simpl in Heq; lia.
Qed.

(** X2. What the resolver returns always differs from what it was given,
    by exactly the suffix: it is the username without its "_clone", or
    the username with "_clone" appended, and in that case it has at most
    80 characters. *)
Theorem get_alt_username_result u v :
  get_alt_username u = Ok v →
  v ≠ u
  ∧ ((PyStr.endswith u "_clone" = true ∧ u = v +:+ "_clone")
     ∨ (PyStr.endswith u "_clone" = false ∧ v = u +:+ "_clone"
        ∧ String.length v ≤ 80)).
Proof.
  intros Huv. split.
  - by apply get_alt_username_differs.
  - by apply get_alt_username_cases.
Qed.

Lemma get_alt_username_result_witness : "app_user_clone" ≠ "app_user".
Proof. apply (get_alt_username_result "app_user" "app_user_clone" eq_refl). Defined.

(** * Reading and validating a secret *)

Lemma get_secret_value_trace arn version stage w r w' :
  get_secret_value arn version stage w = (r, w') →
  w' = after w [GetSecretValue arn version stage].
Proof.
  unfold get_secret_value. run. simpl.
  destruct (secrets w !! arn) as [s|]; [|by intros [= _ <-]].
  destruct (match version with Some _ => _ | None => _ end) as [v|];
    [|by intros [= _ <-]].
  destruct (SecretStrings s !! v); by intros [= _ <-].
Qed.

(** [get_secret_dict] is one fetch followed by the validation of what was
    fetched. *)
Lemma get_secret_dict_run arn stage token w :
  get_secret_dict arn stage token w
  = match get_secret_value arn (if truthy token then token else None) stage w with
    | (Raise e, w') => (Raise e, w')
    | (Ok NotJson, w') => (Raise (ValueError "JSONDecodeError"), w')
    | (Ok (JsonObject d), w') =>
        if bool_decide (d !! "engine" = Some (JStr "mariadb")) then
          match d !! "host", d !! "username", d !! "password" with
          | None, _, _ =>
              (Raise (KeyError "host key is missing from secret JSON"), w')
          | Some _, None, _ =>
              (Raise (KeyError "username key is missing from secret JSON"), w')
          | Some _, Some _, None =>
              (Raise (KeyError "password key is missing from secret JSON"), w')
          | Some _, Some _, Some _ => (Ok d, w')
          end
        else
          (Raise (KeyError "Database engine must be set to 'mariadb' in order to use this rotation lambda"), w')
    end.
Proof.
  unfold get_secret_dict. unfold mbind at 1, M_bind at 1.
  destruct (truthy token);
    destruct (get_secret_value _ _ _ _) as [[[|d]|e] w']; try done.
  all: unfold required_fields; cbn [for_each]; run; cbn [json_loads].
  all: case_bool_decide; [|done].
  all: by destruct (d !! "host"), (d !! "username"), (d !! "password").
Qed.

(** X3. What [get_secret_dict] returns has passed its validation: the
    engine is mariadb and host, username and password are present. It is
    the payload of the one fetch made, by stage alone when the token is
    [None] or empty, and nothing else was called. *)
Theorem get_secret_dict_validates arn stage token w d w' :
  get_secret_dict arn stage token w = (Ok d, w') →
  valid_secret d
  ∧ get_secret_value arn (if truthy token then token else None) stage w
    = (Ok (JsonObject d), w')
  ∧ w' = after w [GetSecretValue arn (if truthy token then token else None) stage].
Proof.
  rewrite get_secret_dict_run.
  destruct (get_secret_value _ _ _ _) as [[[|d']|e] w1] eqn:Hget; try done.
  case_bool_decide as Heng; [|done].
  destruct (d' !! "host") eqn:Hh; [|done].
  destruct (d' !! "username") eqn:Hu; [|done].
  destruct (d' !! "password") eqn:Hp; [|done].
  intros [= <- <-]. split; [|split; [done|]].
  - unfold valid_secret. rewrite Hh, Hu, Hp. eauto.
  - by eapply get_secret_value_trace.
Qed.

Lemma get_secret_dict_validates_witness :
  valid_secret Scenario.current_dict.
Proof.
  apply (get_secret_dict_validates "arn:app" "AWSCURRENT" None
           (Scenario.world Scenario.current_dict Scenario.master_dict)
           Scenario.current_dict
           (after (Scenario.world Scenario.current_dict Scenario.master_dict)
              [GetSecretValue "arn:app" None "AWSCURRENT"])
           eq_refl).
Defined.

(** X4. How [get_secret_dict] rejects what it fetched, the world being
    that after the fetch in each case: a payload that is not JSON is a
    [ValueError]; a missing or different engine is a [KeyError] whatever
    else the secret holds; with the engine right, the first of host,
    username and password that is missing is named in a [KeyError]; and a
    secret that has them all is returned as it is. *)
Theorem get_secret_dict_rejects arn stage token w w' :
  let fetched :=
    get_secret_value arn (if truthy token then token else None) stage w in
  (fetched = (Ok NotJson, w') →
   get_secret_dict arn stage token w = (Raise (ValueError "JSONDecodeError"), w'))
  ∧ ∀ d,
      fetched = (Ok (JsonObject d), w') →
      (d !! "engine" ≠ Some (JStr "mariadb") →
       get_secret_dict arn stage token w
       = (Raise (KeyError "Database engine must be set to 'mariadb' in order to use this rotation lambda"), w'))
      ∧ (d !! "engine" = Some (JStr "mariadb") →
         (d !! "host" = None →
          get_secret_dict arn stage token w
          = (Raise (KeyError "host key is missing from secret JSON"), w'))
         ∧ (is_Some (d !! "host") → d !! "username" = None →
            get_secret_dict arn stage token w
            = (Raise (KeyError "username key is missing from secret JSON"), w'))
         ∧ (is_Some (d !! "host") → is_Some (d !! "username") →
            d !! "password" = None →
            get_secret_dict arn stage token w
            = (Raise (KeyError "password key is missing from secret JSON"), w'))
         ∧ (valid_secret d → get_secret_dict arn stage token w = (Ok d, w'))).
Proof.
  intros fetched. rewrite get_secret_dict_run. fold fetched.
  split; [by intros ->|]. intros d ->. split.
  - intros Heng. by rewrite bool_decide_eq_false_2.
  - intros Heng. rewrite bool_decide_eq_true_2 by done.
    split; [by intros ->|].
    split; [by intros [? ->] ->|].
    split; [by intros [? ->] [? ->] ->|].
    by intros (_ & [? ->] & [? ->] & [? ->]).
Qed.

Lemma get_secret_dict_rejects_witness :
  get_secret_dict "arn:master" "AWSCURRENT" None
    (Scenario.world Scenario.current_dict (delete "password" Scenario.master_dict))
  = (Raise (KeyError "password key is missing from secret JSON"),
     after (Scenario.world Scenario.current_dict
              (delete "password" Scenario.master_dict))
       [GetSecretValue "arn:master" None "AWSCURRENT"]).
Proof.
  destruct (get_secret_dict_rejects "arn:master" "AWSCURRENT" None
              (Scenario.world Scenario.current_dict
                 (delete "password" Scenario.master_dict))
              (after (Scenario.world Scenario.current_dict
                        (delete "password" Scenario.master_dict))
                 [GetSecretValue "arn:master" None "AWSCURRENT"]))
    as [_ Hobj].
  destruct (Hobj (delete "password" Scenario.master_dict) eq_refl) as [_ Heng].
  destruct (Heng eq_refl) as (_ & _ & Hpw & _).
  apply Hpw; [by eexists | by eexists | reflexivity].
Defined.

(** * Logging in *)

Lemma get_connection_run env secret_dict w :
  get_connection env secret_dict w
  = match port_of env secret_dict with
    | Raise e => (Raise e, w)
    | Ok port =>
        match secret_dict !! "host", secret_dict !! "username",
              secret_dict !! "password" with
        | None, _, _ => (Raise (KeyError "host"), w)
        | Some _, None, _ => (Raise (KeyError "username"), w)
        | Some _, Some _, None => (Raise (KeyError "password"), w)
        | Some host, Some user, Some passwd =>
            let args :=
              {| ca_host := host; ca_user := user; ca_passwd := passwd;
                 ca_port := port; ca_db := secret_dict !! "dbname";
                 ca_connect_timeout := 5 |} in
            (login_outcome (db_connect env (trace w) args) (length (trace w)),
             after w [Connect args])
        end
    end.
Proof.
  unfold get_connection, port_of, connect, py_int. run.
  destruct (secret_dict !! "port") as [[s|z]|];
    [destruct (parse_int env s); [|done]| |].
  all: destruct (secret_dict !! "host"); [|done].
  all: destruct (secret_dict !! "username"); [|done].
  all: destruct (secret_dict !! "password"); [|done].
  all: cbn zeta; by destruct (db_connect env _ _) as [[]|[]].
Qed.

(** X5. [get_connection] on a secret that has host, username and password
    and no port, or an integer one, makes one call to [pymysql.connect],
    with the secret's values, port 3306 by default, the secret's dbname if
    any and a timeout of 5. A login that succeeds gives the connection; one
    refused with [OperationalError] gives [None] and no exception; any
    other exception is raised. Without a host no call is made at all. *)
Theorem get_connection_logs_in env secret_dict w host user passwd port :
  secret_dict !! "username" = Some user →
  secret_dict !! "password" = Some passwd →
  (secret_dict !! "port" = None ∧ port = 3306%Z)
  ∨ secret_dict !! "port" = Some (JInt port) →
  (secret_dict !! "host" = None →
   get_connection env secret_dict w = (Raise (KeyError "host"), w))
  ∧ (secret_dict !! "host" = Some host →
     let args :=
       {| ca_host := host; ca_user := user; ca_passwd := passwd;
          ca_port := port; ca_db := secret_dict !! "dbname";
          ca_connect_timeout := 5 |} in
     let answer := db_connect env (trace w) args in
     let w' := after w [Connect args] in
     (answer = Ok tt →
      get_connection env secret_dict w = (Ok (Some (length (trace w))), w'))
     ∧ (answer = Raise OperationalError →
        get_connection env secret_dict w = (Ok None, w'))
     ∧ (∀ e, answer = Raise e → e ≠ OperationalError →
             get_connection env secret_dict w = (Raise e, w'))).
Proof.
  intros Hu Hp Hport. rewrite get_connection_run.
  assert (port_of env secret_dict = Ok port) as ->.
  { unfold port_of. by destruct Hport as [[-> ->]| ->]. }
  rewrite Hu, Hp. split; [by intros ->|]. intros -> args answer w'.
  cbn zeta. fold args answer w'.
  split; [by intros ->|]. split; [by intros ->|].
  intros e -> He. by destruct e.
Qed.

Lemma get_connection_logs_in_witness :
  get_connection (Scenario.env (λ _, false) (Ok [])) Scenario.pending_dict
    (Scenario.staged_world Scenario.master_dict)
  = (Ok None,
     after (Scenario.staged_world Scenario.master_dict)
       [Connect (Scenario.connect_args "app_user_clone" "n3w-Passw0rd")]).
Proof.
  refine (proj1 (proj2 (proj2 (get_connection_logs_in
            (Scenario.env (λ _, false) (Ok [])) Scenario.pending_dict
            (Scenario.staged_world Scenario.master_dict)
            (JStr "db1.cluster.example.com") (JStr "app_user_clone")
            (JStr "n3w-Passw0rd") 3306 eq_refl eq_refl (or_intror eq_refl))
          eq_refl)) eq_refl).
Defined.

(** * testSecret *)

(** X6. testSecret with a PENDING record that logs in sends the one probe
    [SELECT NOW()], commits if the probe succeeded, and closes the
    connection whether or not it did; its outcome is that of the commit,
    or the probe's exception. With a PENDING record that cannot log in it
    raises a [ValueError] and sends nothing. *)
Theorem test_secret_probes env arn token w pending_dict w1 conn w2 :
  get_secret_dict arn "AWSPENDING" (Some token) w = (Ok pending_dict, w1) →
  get_connection env pending_dict w1 = (Ok conn, w2) →
  match conn with
  | None =>
      test_secret env arn token w
      = (Raise (ValueError ("Unable to log into database with pending secret of secret ARN "
                            +:+ arn)), w2)
  | Some c =>
      let probe := Execute c "SELECT NOW()" [] in
      match db_execute env (trace w2) c "SELECT NOW()" [] with
      | Ok _ =>
          test_secret env arn token w
          = (db_commit env (trace w2 ++ [probe]) c,
             after w2 [probe; Commit c; Close c])
      | Raise e =>
          test_secret env arn token w = (Raise e, after w2 [probe; Close c])
      end
  end.
Proof.
  intros Hpend Hconn. unfold test_secret.
  rewrite (bind_ok _ _ _ _ _ Hpend), (bind_ok _ _ _ _ _ Hconn).
  destruct conn as [c|]; [|done].
  unfold try_finally, execute, commit, close. run. cbn [trace secrets].
  destruct (db_execute env (trace w2) c _ _) as [[]|e].
  - unfold after. cbn [trace secrets].
    destruct (db_commit env _ c) as [[]|e];
      cbn [trace secrets]; rewrite <- ?app_assoc; reflexivity.
  - unfold after. cbn [trace secrets]. rewrite <- ?app_assoc. reflexivity.
Qed.

Lemma test_secret_probes_witness :
  test_secret (Cases.env ["app_user_clone"] (λ _, true) (Ok [])) "arn:app" "v2"
    (Scenario.staged_world Scenario.master_dict)
  = (Raise OperationalError,
     after (after (after (Scenario.staged_world Scenario.master_dict)
                     [GetSecretValue "arn:app" (Some "v2") "AWSPENDING"])
              [Connect (Scenario.connect_args "app_user_clone" "n3w-Passw0rd")])
       [Execute 1 "SELECT NOW()" []; Close 1]).
Proof.
  apply (test_secret_probes
           (Cases.env ["app_user_clone"] (λ _, true) (Ok [])) "arn:app" "v2"
           (Scenario.staged_world Scenario.master_dict)
           Scenario.pending_dict
           (after (Scenario.staged_world Scenario.master_dict)
              [GetSecretValue "arn:app" (Some "v2") "AWSPENDING"])
           (Some 1)
           (after (after (Scenario.staged_world Scenario.master_dict)
                     [GetSecretValue "arn:app" (Some "v2") "AWSPENDING"])
              [Connect (Scenario.connect_args "app_user_clone" "n3w-Passw0rd")])
           eq_refl eq_refl).
Defined.

(** * createSecret: errors of the PENDING fetch *)

(** X7. createSecret takes only the store's "not found" as the sign that
    no PENDING record exists. Any other failure of the PENDING fetch, a
    staged payload that does not validate included, is raised as it is,
    and createSecret has then only read the store: it asks for no password
    and overwrites nothing. *)
Theorem create_secret_propagates env arn token w current_dict w1 e w2 :
  get_secret_dict arn "AWSCURRENT" None w = (Ok current_dict, w1) →
  get_secret_dict arn "AWSPENDING" (Some token) w1 = (Raise e, w2) →
  e ≠ ResourceNotFoundException →
  create_secret env arn token w = (Raise e, w2)
  ∧ quiet (λ ev, is_store_read ev = true) w w2.
Proof.
  intros Hcur Hpend He. split.
  - unfold create_secret. rewrite (bind_ok _ _ _ _ _ Hcur).
    unfold try_except. rewrite Hpend. by destruct e.
  - etrans.
    + exact (keeps_run _ _ _ _ _
               (quiet_get_secret_dict _ (λ _ H, H) _ _ _) Hcur).
    + exact (keeps_run _ _ _ _ _
               (quiet_get_secret_dict _ (λ _ H, H) _ _ _) Hpend).
Qed.

Lemma create_secret_propagates_witness :
  ∃ w2,
    create_secret (Scenario.env (λ _, false) (Ok [])) "arn:app" "v2"
      (Cases.staged Scenario.current_dict
         (delete "engine" Scenario.pending_dict) Scenario.master_dict)
    = (Raise (KeyError "Database engine must be set to 'mariadb' in order to use this rotation lambda"),
       w2).
Proof.
  eexists.
  refine (proj1 (create_secret_propagates
            (Scenario.env (λ _, false) (Ok [])) "arn:app" "v2"
            (Cases.staged Scenario.current_dict
               (delete "engine" Scenario.pending_dict) Scenario.master_dict)
            Scenario.current_dict
            (after (Cases.staged Scenario.current_dict
                      (delete "engine" Scenario.pending_dict)
                      Scenario.master_dict)
               [GetSecretValue "arn:app" None "AWSCURRENT"])
            _ _ eq_refl eq_refl _)).
  discriminate.
Defined.

(** * setSecret: the checks before the master credential is used *)

(** The run of [set_secret] from its checks on. *)
Lemma set_secret_at_checks env arn token w current_dict pending_dict w3 :
  set_secret_starts env arn token w current_dict pending_dict w3 →
  set_secret env arn token w
  = (current_username ← getitem current_dict "username";
     alt ← as_str current_username ≫= λ u, lift (get_alt_username u);
     pending_username ← getitem pending_dict "username";
     (if bool_decide (JStr alt ≠ pending_username) then
        raise (ValueError ("Attempting to modify user " +:+ py_str pending_username
                           +:+ " other than current user or clone "
                           +:+ py_str current_username))
      else mret tt) ;;
     current_host ← getitem current_dict "host";
     pending_host ← getitem pending_dict "host";
     (if bool_decide (current_host ≠ pending_host) then
        raise (ValueError ("Attempting to modify user for host " +:+ py_str pending_host
                           +:+ " other than current host " +:+ py_str current_host))
      else mret tt) ;;
     conn ← get_connection env current_dict;
     match conn with
     | None =>
         raise (ValueError ("Unable to log into database using current credentials for secret "
                            +:+ arn))
     | Some c =>
         close c ;;
         master_arn ← getitem current_dict "masterarn";
         master_dict ←
           match master_arn with
           | JStr a => get_secret_dict a "AWSCURRENT" None
           | JInt _ => raise (ClientError "ParamValidationError")
           end;
         current_host ← getitem current_dict "host";
         master_host ← getitem master_dict "host";
         untrusted ←
           (if bool_decide (current_host ≠ master_host) then
              is_replica ← is_rds_replica_database env current_dict master_dict;
              mret (negb is_replica)
            else mret false);
         if (untrusted : bool) then
           raise (ValueError ("Current database host " +:+ py_str current_host
                              +:+ " is not the same host as/rds replica of master "
                              +:+ py_str master_host))
         else
           conn ← get_connection env master_dict;
           match conn with
           | None =>
               raise (ValueError ("Unable to log into database using credentials in master secret "
                                  +:+ py_str master_arn))
           | Some c => replicate_grants env c current_dict pending_dict
           end
     end) w3.
Proof.
  intros (w1 & w2 & Hcur & Hpend & Hlogin). unfold set_secret.
  by rewrite (bind_ok _ _ _ _ _ Hcur), (bind_ok _ _ _ _ _ Hpend),
    (bind_ok _ _ _ _ _ Hlogin).
Qed.

Lemma set_secret_starts_quiet env arn token w current_dict pending_dict w3
    (P : event → Prop) :
  (∀ e, is_store_read e = true → P e) → (∀ args, P (Connect args)) →
  set_secret_starts env arn token w current_dict pending_dict w3 →
  quiet P w w3.
Proof.
  intros Hread Hconn (w1 & w2 & Hcur & Hpend & Hlogin).
  etrans; [exact (keeps_run _ _ _ _ _
                    (quiet_get_secret_dict P Hread _ _ _) Hcur)|].
  etrans; [exact (keeps_run _ _ _ _ _
                    (quiet_get_secret_dict P Hread _ _ _) Hpend)|].
  exact (keeps_run _ _ _ _ _ (quiet_get_connection env P _ Hconn) Hlogin).
Qed.

(** X8. setSecret is idempotent on the password: when the login with the
    PENDING credential succeeds it closes that connection and returns,
    having sent no statement and read no master secret. *)
Theorem set_secret_already_set env arn token w current_dict pending_dict
    w1 w2 conn w3 :
  get_secret_dict arn "AWSCURRENT" None w = (Ok current_dict, w1) →
  get_secret_dict arn "AWSPENDING" (Some token) w1 = (Ok pending_dict, w2) →
  get_connection env pending_dict w2 = (Ok (Some conn), w3) →
  set_secret env arn token w = (Ok tt, after w3 [Close conn])
  ∧ quiet (λ e, is_db_write e = false) w (after w3 [Close conn]).
Proof.
  intros Hcur Hpend Hlogin. split.
  - unfold set_secret.
    by rewrite (bind_ok _ _ _ _ _ Hcur), (bind_ok _ _ _ _ _ Hpend),
      (bind_ok _ _ _ _ _ Hlogin).
  - set (P := λ e, is_db_write e = false).
    assert (∀ e, is_store_read e = true → P e) as Hread by by intros [].
    etrans; [exact (keeps_run _ _ _ _ _
                      (quiet_get_secret_dict P Hread _ _ _) Hcur)|].
    etrans; [exact (keeps_run _ _ _ _ _
                      (quiet_get_secret_dict P Hread _ _ _) Hpend)|].
    etrans; [exact (keeps_run _ _ _ _ _
                      (quiet_get_connection env P _ (λ _, eq_refl)) Hlogin)|].
    by apply (quiet_emit P (Close conn)).
Qed.

Lemma set_secret_already_set_witness :
  ∃ w',
    set_secret (Cases.env ["app_user_clone"] (λ _, false) (Ok [])) "arn:app" "v2"
      (Scenario.staged_world Scenario.master_dict)
    = (Ok tt, w').
Proof.
  eexists.
  refine (proj1 (set_secret_already_set
            (Cases.env ["app_user_clone"] (λ _, false) (Ok [])) "arn:app" "v2"
            (Scenario.staged_world Scenario.master_dict)
            Scenario.current_dict Scenario.pending_dict
            (after (Scenario.staged_world Scenario.master_dict)
               [GetSecretValue "arn:app" None "AWSCURRENT"])
            (after (after (Scenario.staged_world Scenario.master_dict)
                      [GetSecretValue "arn:app" None "AWSCURRENT"])
               [GetSecretValue "arn:app" (Some "v2") "AWSPENDING"])
            2 _ eq_refl eq_refl eq_refl)).
Defined.

(** X9. setSecret refuses an account that is not the alternate of the
    CURRENT user: with a PENDING username different from it, the CURRENT
    user itself included, it raises a [ValueError] at once, before any
    login with the CURRENT or the master credential. *)
Theorem set_secret_identity_mismatch env arn token w current_dict pending_dict
    w3 username alt pending_username :
  set_secret_starts env arn token w current_dict pending_dict w3 →
  current_dict !! "username" = Some (JStr username) →
  get_alt_username username = Ok alt →
  pending_dict !! "username" = Some pending_username →
  pending_username ≠ JStr alt →
  set_secret env arn token w
  = (Raise (ValueError ("Attempting to modify user " +:+ py_str pending_username
                        +:+ " other than current user or clone " +:+ username)),
     w3)
  ∧ JStr username ≠ JStr alt.
Proof.
  intros Hstart Hu Halt Hpu Hne. split.
  - rewrite (set_secret_at_checks _ _ _ _ _ _ _ Hstart).
    rewrite (bind_ok _ _ _ _ _ (getitem_ok _ _ _ _ Hu)).
    assert ((as_str (JStr username) ≫= λ u, lift (get_alt_username u)) w3
            = (Ok alt, w3)) as Hstep by (run; by rewrite Halt).
    rewrite (bind_ok _ _ _ _ _ Hstep).
    rewrite (bind_ok _ _ _ _ _ (getitem_ok _ _ _ _ Hpu)).
    by rewrite bool_decide_eq_true_2 by congruence.
  - intros [= Heq]. by apply (get_alt_username_differs _ _ Halt).
Qed.


Lemma set_secret_identity_mismatch_witness :
  ∃ w3,
    set_secret (Scenario.env (λ _, false) (Ok [])) "arn:app" "v2"
      (Cases.staged Scenario.current_dict
         (<["username" := JStr "reporting"]> Scenario.pending_dict)
         Scenario.master_dict)
    = (Raise (ValueError "Attempting to modify user reporting other than current user or clone app_user"),
       w3).
Proof.
  pose (w := Cases.staged Scenario.current_dict
               (<["username" := JStr "reporting"]> Scenario.pending_dict)
               Scenario.master_dict).
  eexists.
  refine (proj1 (set_secret_identity_mismatch
            (Scenario.env (λ _, false) (Ok [])) "arn:app" "v2" w
            Scenario.current_dict
            (<["username" := JStr "reporting"]> Scenario.pending_dict)
            (Cases.at_checks w "db1.cluster.example.com" "reporting" "n3w-Passw0rd")
            "app_user" "app_user_clone" (JStr "reporting")
            _ eq_refl eq_refl eq_refl _)).
  - exists (after w [GetSecretValue "arn:app" None "AWSCURRENT"]),
      (after (after w [GetSecretValue "arn:app" None "AWSCURRENT"])
         [GetSecretValue "arn:app" (Some "v2") "AWSPENDING"]).
    repeat split; reflexivity.
  - discriminate.
Defined.

(** X10. setSecret refuses to act on another host: when the PENDING user
    is the alternate of the CURRENT one but the two records name different
    hosts, it raises a [ValueError] before any login with the CURRENT or
    the master credential. *)
Theorem set_secret_host_mismatch env arn token w current_dict pending_dict
    w3 current_host pending_host :
  set_secret_starts env arn token w current_dict pending_dict w3 →
  alternate_user current_dict pending_dict →
  current_dict !! "host" = Some current_host →
  pending_dict !! "host" = Some pending_host →
  current_host ≠ pending_host →
  set_secret env arn token w
  = (Raise (ValueError ("Attempting to modify user for host " +:+ py_str pending_host
                        +:+ " other than current host " +:+ py_str current_host)),
     w3).
Proof.
  intros Hstart (u & alt & Hu & Halt & Hpu) Hch Hph Hne.
  rewrite (set_secret_at_checks _ _ _ _ _ _ _ Hstart).
  rewrite (bind_ok _ _ _ _ _ (getitem_ok _ _ _ _ Hu)).
  assert ((as_str (JStr u) ≫= λ u, lift (get_alt_username u)) w3
          = (Ok alt, w3)) as Hstep by (run; by rewrite Halt).
  rewrite (bind_ok _ _ _ _ _ Hstep).
  rewrite (bind_ok _ _ _ _ _ (getitem_ok _ _ _ _ Hpu)).
  rewrite bool_decide_eq_false_2 by (by intros []).
  rewrite (bind_ok _ _ w3 tt w3) by done.
  rewrite (bind_ok _ _ _ _ _ (getitem_ok _ _ _ _ Hch)).
  rewrite (bind_ok _ _ _ _ _ (getitem_ok _ _ _ _ Hph)).
  by rewrite bool_decide_eq_true_2.
Qed.

Lemma set_secret_host_mismatch_witness :
  ∃ w3,
    set_secret (Scenario.env (λ _, false) (Ok [])) "arn:app" "v2"
      (Cases.staged Scenario.current_dict
         (<["host" := JStr "db2.cluster.example.com"]> Scenario.pending_dict)
         Scenario.master_dict)
    = (Raise (ValueError "Attempting to modify user for host db2.cluster.example.com other than current host db1.cluster.example.com"),
       w3).
Proof.
  pose (w := Cases.staged Scenario.current_dict
               (<["host" := JStr "db2.cluster.example.com"]> Scenario.pending_dict)
               Scenario.master_dict).
  eexists.
  refine (set_secret_host_mismatch
            (Scenario.env (λ _, false) (Ok [])) "arn:app" "v2" w
            Scenario.current_dict
            (<["host" := JStr "db2.cluster.example.com"]> Scenario.pending_dict)
            (Cases.at_checks w "db2.cluster.example.com" "app_user_clone" "n3w-Passw0rd")
            (JStr "db1.cluster.example.com") (JStr "db2.cluster.example.com")
            _ _ eq_refl eq_refl _).
  - exists (after w [GetSecretValue "arn:app" None "AWSCURRENT"]),
      (after (after w [GetSecretValue "arn:app" None "AWSCURRENT"])
         [GetSecretValue "arn:app" (Some "v2") "AWSPENDING"]).
    repeat split; reflexivity.
  - exists "app_user", "app_user_clone". repeat split; reflexivity.
  - discriminate.
Defined.

(** The run of [set_secret] once the account and host checks have passed:
    the login with the CURRENT credential. *)
Lemma set_secret_at_current_login env arn token w current_dict pending_dict w3 :
  set_secret_starts env arn token w current_dict pending_dict w3 →
  alternate_user current_dict pending_dict →
  same_host current_dict pending_dict →
  set_secret env arn token w
  = (conn ← get_connection env current_dict;
     match conn with
     | None =>
         raise (ValueError ("Unable to log into database using current credentials for secret "
                            +:+ arn))
     | Some c =>
         close c ;;
         master_arn ← getitem current_dict "masterarn";
         master_dict ←
           match master_arn with
           | JStr a => get_secret_dict a "AWSCURRENT" None
           | JInt _ => raise (ClientError "ParamValidationError")
           end;
         current_host ← getitem current_dict "host";
         master_host ← getitem master_dict "host";
         untrusted ←
           (if bool_decide (current_host ≠ master_host) then
              is_replica ← is_rds_replica_database env current_dict master_dict;
              mret (negb is_replica)
            else mret false);
         if (untrusted : bool) then
           raise (ValueError ("Current database host " +:+ py_str current_host
                              +:+ " is not the same host as/rds replica of master "
                              +:+ py_str master_host))
         else
           conn ← get_connection env master_dict;
           match conn with
           | None =>
               raise (ValueError ("Unable to log into database using credentials in master secret "
                                  +:+ py_str master_arn))
           | Some c => replicate_grants env c current_dict pending_dict
           end
     end) w3.
Proof.
  intros Hstart (u & alt & Hu & Halt & Hpu) (h & Hch & Hph).
  rewrite (set_secret_at_checks _ _ _ _ _ _ _ Hstart).
  rewrite (bind_ok _ _ _ _ _ (getitem_ok _ _ _ _ Hu)).
  assert ((as_str (JStr u) ≫= λ u, lift (get_alt_username u)) w3
          = (Ok alt, w3)) as Hstep by (run; by rewrite Halt).
  rewrite (bind_ok _ _ _ _ _ Hstep).
  rewrite (bind_ok _ _ _ _ _ (getitem_ok _ _ _ _ Hpu)).
  rewrite bool_decide_eq_false_2 by (by intros []).
  rewrite (bind_ok _ _ w3 tt w3) by done.
  rewrite (bind_ok _ _ _ _ _ (getitem_ok _ _ _ _ Hch)).
  rewrite (bind_ok _ _ _ _ _ (getitem_ok _ _ _ _ Hph)).
  rewrite bool_decide_eq_false_2 by (by intros []).
  by rewrite (bind_ok _ _ w3 tt w3) by done.
Qed.

(** X11. setSecret proves the CURRENT credential before it trusts it: when
    the login with it fails, it raises a [ValueError]; the master secret
    has not been read and nothing has been sent to the database. *)
Theorem set_secret_current_invalid env arn token w current_dict pending_dict
    w3 w4 :
  set_secret_starts env arn token w current_dict pending_dict w3 →
  alternate_user current_dict pending_dict →
  same_host current_dict pending_dict →
  get_connection env current_dict w3 = (Ok None, w4) →
  set_secret env arn token w
  = (Raise (ValueError ("Unable to log into database using current credentials for secret "
                        +:+ arn)), w4)
  ∧ quiet (λ e, is_db_write e = false) w w4.
Proof.
  intros Hstart Halt Hhost Hlogin. split.
  - rewrite (set_secret_at_current_login _ _ _ _ _ _ _ Hstart Halt Hhost).
    by rewrite (bind_ok _ _ _ _ _ Hlogin).
  - set (P := λ e, is_db_write e = false).
    etrans.
    + apply (set_secret_starts_quiet _ _ _ _ _ _ _ P) in Hstart;
        [exact Hstart | by intros [] | done].
    + exact (keeps_run _ _ _ _ _
               (quiet_get_connection env P _ (λ _, eq_refl)) Hlogin).
Qed.

Lemma set_secret_current_invalid_witness :
  ∃ w4,
    set_secret (Cases.env [] (λ _, false) (Ok [])) "arn:app" "v2"
      (Scenario.staged_world Scenario.master_dict)
    = (Raise (ValueError "Unable to log into database using current credentials for secret arn:app"),
       w4).
Proof.
  pose (w := Scenario.staged_world Scenario.master_dict).
  pose (w3 := Cases.at_checks w "db1.cluster.example.com" "app_user_clone"
                "n3w-Passw0rd").
  eexists.
  refine (proj1 (set_secret_current_invalid
            (Cases.env [] (λ _, false) (Ok [])) "arn:app" "v2" w
            Scenario.current_dict Scenario.pending_dict w3
            (after w3 [Connect (Scenario.connect_args "app_user" "old-password")])
            _ _ _ eq_refl)).
  - exists (after w [GetSecretValue "arn:app" None "AWSCURRENT"]),
      (after (after w [GetSecretValue "arn:app" None "AWSCURRENT"])
         [GetSecretValue "arn:app" (Some "v2") "AWSPENDING"]).
    repeat split; reflexivity.
  - exists "app_user", "app_user_clone". repeat split; reflexivity.
  - eexists. split; reflexivity.
Defined.


(** The run of [set_secret] once the CURRENT credential has logged in and
    the master secret is read, when the CURRENT host is the master's or
    the inventory confirms it as a replica of it. *)
Lemma is_rds_replica_database_confirmed env current_dict master_dict
    current_host master_host w :
  current_dict !! "host" = Some (JStr current_host) →
  master_dict !! "host" = Some (JStr master_host) →
  confirms_replica
    (rds_describe_db_instances env (trace w) (PyStr.split_0 "." current_host))
    (PyStr.split_0 "." master_host) →
  is_rds_replica_database env current_dict master_dict w
  = (Ok true, after w [DescribeDBInstances (PyStr.split_0 "." current_host)]).
Proof.
  intros Hch Hmh (inst & rest & Hans & Hsrc).
  rewrite (is_rds_replica_database_run _ _ _ _ _ _ Hch Hmh), Hans.
  by rewrite bool_decide_eq_true_2.
Qed.

(** X12. setSecret uses the master credential once the CURRENT one has
    logged in and the CURRENT host is the master's, in which case the
    inventory is not asked, or is confirmed by the inventory as a replica
    of it. It then logs in with the master credential: a failed login is a
    [ValueError] with no statement sent, a successful one is followed by
    the replication of the grants on that connection. *)
Theorem set_secret_trusted_host env arn token w current_dict pending_dict
    w3 conn w4 master_arn master_dict w5 current_host master_host :
  set_secret_starts env arn token w current_dict pending_dict w3 →
  alternate_user current_dict pending_dict →
  same_host current_dict pending_dict →
  get_connection env current_dict w3 = (Ok (Some conn), w4) →
  current_dict !! "masterarn" = Some (JStr master_arn) →
  get_secret_dict master_arn "AWSCURRENT" None (after w4 [Close conn])
  = (Ok master_dict, w5) →
  current_dict !! "host" = Some (JStr current_host) →
  master_dict !! "host" = Some (JStr master_host) →
  current_host = master_host
  ∨ confirms_replica
      (rds_describe_db_instances env (trace w5) (PyStr.split_0 "." current_host))
      (PyStr.split_0 "." master_host) →
  let w5' :=
    if decide (current_host = master_host) then w5
    else after w5 [DescribeDBInstances (PyStr.split_0 "." current_host)] in
  ∀ master_conn w6,
    get_connection env master_dict w5' = (Ok master_conn, w6) →
    match master_conn with
    | None =>
        set_secret env arn token w
        = (Raise (ValueError ("Unable to log into database using credentials in master secret "
                              +:+ master_arn)), w6)
    | Some c =>
        set_secret env arn token w
        = replicate_grants env c current_dict pending_dict w6
    end.
Proof.
  intros Hstart Halt Hhost Hlogin Hma Hmaster Hch Hmh Htrust w5' mc w6 Hml.
  rewrite (set_secret_at_current_login _ _ _ _ _ _ _ Hstart Halt Hhost).
  rewrite (bind_ok _ _ _ _ _ Hlogin).
  rewrite (bind_ok _ _ w4 tt (after w4 [Close conn])) by done.
  rewrite (bind_ok _ _ _ _ _ (getitem_ok _ _ _ _ Hma)).
  rewrite (bind_ok _ _ _ _ _ Hmaster).
  rewrite (bind_ok _ _ _ _ _ (getitem_ok _ _ _ _ Hch)).
  rewrite (bind_ok _ _ _ _ _ (getitem_ok _ _ _ _ Hmh)).
  assert ((if bool_decide (JStr current_host ≠ JStr master_host) then
             is_replica ← is_rds_replica_database env current_dict master_dict;
             mret (negb is_replica)
           else mret false) w5 = (Ok false, w5')) as Hcheck.
  { unfold w5'. destruct (decide (current_host = master_host)) as [->|Hne].
    - by rewrite bool_decide_eq_false_2 by (by intros []).
    - rewrite bool_decide_eq_true_2 by congruence.
      destruct Htrust as [?|Hconf]; [done|].
      by rewrite (bind_ok _ _ _ _ _
                    (is_rds_replica_database_confirmed _ _ _ _ _ _ Hch Hmh Hconf)). }
  rewrite (bind_ok _ _ _ _ _ Hcheck). cbn [py_str].
  rewrite (bind_ok _ _ _ _ _ Hml). by destruct mc.
Qed.

Lemma set_secret_trusted_host_witness :
  ∃ w6,
    set_secret (Cases.env ["app_user"] (λ _, false) (Ok [])) "arn:app" "v2"
      (Scenario.staged_world Scenario.master_dict)
    = (Raise (ValueError "Unable to log into database using credentials in master secret arn:master"),
       w6).
Proof.
  pose (env := Cases.env ["app_user"] (λ _, false) (Ok [])).
  pose (w := Scenario.staged_world Scenario.master_dict).
  pose (w3 := Cases.at_checks w "db1.cluster.example.com" "app_user_clone"
                "n3w-Passw0rd").
  pose (w4 := after w3 [Connect (Scenario.connect_args "app_user" "old-password")]).
  pose (w5 := after (after w4 [Close 3])
                [GetSecretValue "arn:master" None "AWSCURRENT"]).
  pose (w6 := after w5 [Connect (Scenario.connect_args "admin" "admin-password")]).
  exists w6.
  refine (set_secret_trusted_host env "arn:app" "v2" w
            Scenario.current_dict Scenario.pending_dict w3 3 w4 "arn:master"
            Scenario.master_dict w5 "db1.cluster.example.com"
            "db1.cluster.example.com" _ _ _ eq_refl eq_refl eq_refl eq_refl
            eq_refl (or_introl eq_refl) None w6 eq_refl).
  - exists (after w [GetSecretValue "arn:app" None "AWSCURRENT"]),
      (after (after w [GetSecretValue "arn:app" None "AWSCURRENT"])
         [GetSecretValue "arn:app" (Some "v2") "AWSPENDING"]).
    repeat split; reflexivity.
  - exists "app_user", "app_user_clone". repeat split; reflexivity.
  - eexists. split; reflexivity.
Defined.

(** * What each step never does *)

Ltac quiet_step :=
  first
    [ apply quiet_get_secret_dict
    | apply quiet_describe_secret
    | apply quiet_get_connection
    | apply quiet_emit
    | keeps_step
    | match goal with
      | H : Some _ = Some _ |- _ => injection H as <-
      | H : None = Some _ |- _ => discriminate H
      | H : match ?e with _ => _ end = Some _ |- _ =>
          destruct e; try discriminate H
      end ].

Lemma quiet_db_calls env (P : event → Prop) :
  (∀ e, is_db_call e = true → P e) →
  (∀ c sql args, keeps (quiet P) (execute env c sql args))
  ∧ (∀ c, keeps (quiet P) (fetchall env c))
  ∧ (∀ c, keeps (quiet P) (commit env c))
  ∧ (∀ c, keeps (quiet P) (close c)).
Proof.
  intros HP. unfold execute, fetchall, commit, close.
  repeat split; intros; repeat quiet_step; by apply HP.
Qed.

Lemma quiet_is_rds_replica_database env (P : event → Prop) rd md :
  (∀ e, is_db_call e = true → P e) →
  keeps (quiet P) (is_rds_replica_database env rd md).
Proof.
  intros HP. unfold is_rds_replica_database.
  repeat quiet_step; by apply HP.
Qed.

Lemma quiet_replicate_grants env (P : event → Prop) c cur pend :
  (∀ e, is_db_call e = true → P e) →
  keeps (quiet P) (replicate_grants env c cur pend).
Proof.
  intros HP. destruct (quiet_db_calls env P HP) as (He & Hf & Hc & Hcl).
  unfold replicate_grants, replicate_grant.
  repeat first [apply He | apply Hf | apply Hc | apply Hcl | quiet_step].
Qed.

Lemma quiet_set_secret env (P : event → Prop) arn token :
  (∀ e, is_store_read e = true → P e) →
  (∀ e, is_db_call e = true → P e) →
  keeps (quiet P) (set_secret env arn token).
Proof.
  intros Hread HP. destruct (quiet_db_calls env P HP) as (He & Hf & Hc & Hcl).
  unfold set_secret.
  repeat first
    [ apply Hcl | apply quiet_replicate_grants
    | apply quiet_is_rds_replica_database | quiet_step ];
    first [done | by apply HP | by intros; apply HP].
Qed.

Lemma quiet_test_secret env (P : event → Prop) arn token :
  (∀ e, is_store_read e = true → P e) →
  (∀ e, is_db_call e = true → P e) →
  keeps (quiet P) (test_secret env arn token).
Proof.
  intros Hread HP. destruct (quiet_db_calls env P HP) as (He & Hf & Hc & Hcl).
  unfold test_secret.
  repeat first [ apply He | apply Hc | apply Hcl | quiet_step ];
    first [done | by apply HP | by intros; apply HP].
Qed.

(** X13. setSecret and testSecret never write to the secret store: for
    every request and every behaviour of the database and the inventory,
    the store is after them what it was before, and they have asked for
    no password, stored no payload and moved no label. *)
Theorem set_secret_test_secret_leave_store env arn token w :
  quiet no_store_write w (set_secret env arn token w).2
  ∧ quiet no_store_write w (test_secret env arn token w).2.
Proof.
  split.
  - apply (quiet_set_secret env no_store_write); by intros [].
  - apply (quiet_test_secret env no_store_write); by intros [].
Qed.

Global Instance emits_preorder P : PreOrder (emits P).
Proof.
  split.
  - intros w. exists []. by rewrite app_nil_r.
  - intros w1 w2 w3 (evs1 & Ht1 & HP1) (evs2 & Ht2 & HP2).
    exists (evs1 ++ evs2). rewrite Ht2, Ht1, app_assoc.
    split; [done|]. by apply Forall_app.
Qed.

Lemma emits_of_quiet (P : event → Prop) {A} (m : M A) :
  keeps (quiet P) m → keeps (emits P) m.
Proof. intros Hm w. by destruct (Hm w) as [_ ?]. Qed.

Lemma emits_emit (P : event → Prop) e : P e → keeps (emits P) (emit e).
Proof. intros He w. exists [e]. split; [done|]. by apply Forall_singleton. Qed.

Lemma emits_write_store (P : event → Prop) s : keeps (emits P) (write_store s).
Proof. intros w. exists []. split; [by rewrite app_nil_r | done]. Qed.

Ltac emits_step :=
  first
    [ apply emits_of_quiet, quiet_get_secret_dict
    | apply emits_of_quiet, quiet_describe_secret
    | apply emits_write_store
    | apply emits_emit
    | keeps_step
    | match goal with
      | H : Some _ = Some _ |- _ => injection H as <-
      | H : None = Some _ |- _ => discriminate H
      | H : match ?e with _ => _ end = Some _ |- _ =>
          destruct e; try discriminate H
      end ].

Lemma emits_create_secret env (P : event → Prop) arn token :
  (∀ e, is_db_call e = false → P e) →
  keeps (emits P) (create_secret env arn token).
Proof.
  intros HP. unfold create_secret, get_random_password, put_secret_value.
  repeat emits_step;
    first [by apply HP | intros e' Hr; apply HP; by destruct e'].
Qed.

Lemma emits_finish_secret (P : event → Prop) arn token :
  (∀ e, is_db_call e = false → P e) →
  keeps (emits P) (finish_secret arn token).
Proof.
  intros HP. unfold finish_secret, update_secret_version_stage.
  repeat emits_step;
    first [by apply HP | intros e' Hr; apply HP; by destruct e'].
Qed.

(** X14. createSecret and finishSecret never reach the database or the
    inventory: for every request and every state of the store they open no
    connection, send no statement and make no inventory query. *)
Theorem create_secret_finish_secret_no_database env arn token w :
  emits (λ e, is_db_call e = false) w (create_secret env arn token w).2
  ∧ emits (λ e, is_db_call e = false) w (finish_secret arn token w).2.
Proof.
  split.
  - by apply (emits_create_secret env (λ e, is_db_call e = false)).
  - by apply (emits_finish_secret (λ e, is_db_call e = false)).
Qed.

(** * Connections are closed *)

Lemma leak_free_no_connect env t0 evs :
  Forall (λ e, is_connect e = false) evs → leak_free env t0 evs.
Proof.
  intros Hall i args Hi _.
  by apply (Forall_lookup_1 _ _ _ _ Hall) in Hi.
Qed.

Lemma leak_free_app env t0 evs1 evs2 :
  leak_free env t0 evs1 → leak_free env (t0 ++ evs1) evs2 →
  leak_free env t0 (evs1 ++ evs2).
Proof.
  intros H1 H2 i args Hi Hc.
  destruct (decide (i < length evs1)) as [Hlt|Hge].
  - rewrite lookup_app_l in Hi by done.
    rewrite take_app_le in Hc by lia.
    destruct (H1 i args Hi Hc) as (j & Hij & Hj).
    exists j. split; [done|]. by apply lookup_app_l_Some.
  - rewrite lookup_app_r in Hi by lia.
    rewrite take_app_ge, app_assoc in Hc by lia.
    destruct (H2 _ args Hi Hc) as (j & Hij & Hj).
    exists (length evs1 + j). split; [lia|].
    rewrite lookup_app_r by lia.
    replace (length evs1 + j - length evs1) with j by lia.
    rewrite Hj. do 2 f_equal. rewrite length_app. lia.
Qed.

Lemma leak_free_cons_connect env t0 args evs :
  leak_free env (t0 ++ [Connect args]) evs →
  (db_connect env t0 args = Ok tt → Close (length t0) ∈ evs) →
  leak_free env t0 (Connect args :: evs).
Proof.
  intros H1 H2 [|i] a Hi Hc; simpl in Hi, Hc.
  - injection Hi as <-. rewrite app_nil_r in Hc.
    apply H2, list_elem_of_lookup_1 in Hc as [j Hj].
    exists (S j). split; [lia|]. simpl. rewrite Hj. do 2 f_equal. lia.
  - change (t0 ++ Connect args :: take i evs)
      with (t0 ++ [Connect args] ++ take i evs) in Hc.
    rewrite app_assoc in Hc.
    destruct (H1 i a Hi Hc) as (j & Hij & Hj).
    exists (S j). split; [lia|]. simpl. rewrite Hj. do 2 f_equal.
    rewrite length_app. simpl. lia.
Qed.

Global Instance closes_preorder env : PreOrder (closes env).
Proof.
  split.
  - intros w. exists []. split; [by rewrite app_nil_r|].
    by apply leak_free_no_connect.
  - intros w1 w2 w3 (evs1 & Ht1 & H1) (evs2 & Ht2 & H2).
    exists (evs1 ++ evs2). rewrite Ht2, Ht1, app_assoc. split; [done|].
    apply leak_free_app; [done|]. by rewrite <- Ht1.
Qed.

Lemma closes_of_emits env {A} (m : M A) :
  keeps (emits (λ e, is_connect e = false)) m → keeps (closes env) m.
Proof.
  intros Hm w. destruct (Hm w) as (evs & Ht & Hall).
  exists evs. split; [done|]. by apply leak_free_no_connect.
Qed.

Lemma closes_of_quiet env {A} (m : M A) :
  keeps (quiet (λ e, is_connect e = false)) m → keeps (closes env) m.
Proof. intros Hm. by apply closes_of_emits, emits_of_quiet. Qed.

Lemma closing_close env c : keeps (closing env c) (close c).
Proof.
  intros w. exists [Close c]. split; [done|]. split.
  - apply leak_free_no_connect. by repeat constructor.
  - by left.
Qed.

Lemma closing_close_then env c {B} (rest : M B) :
  keeps (closes env) rest → keeps (closing env c) (close c ;; rest).
Proof.
  intros Hrest w.
  change ((close c ;; rest) w) with (rest (after w [Close c])).
  destruct (Hrest (after w [Close c])) as (evs & Ht & Hfree).
  exists (Close c :: evs). cbn [after trace] in Ht, Hfree.
  split; [by rewrite Ht, <- app_assoc|]. split; [|by left].
  apply (leak_free_app env _ [Close c]); [|done].
  apply leak_free_no_connect. by repeat constructor.
Qed.

Lemma closing_try_finally env c {A} (m : M A) :
  keeps (closes env) m → keeps (closing env c) (try_finally m (close c)).
Proof.
  intros Hm w. unfold try_finally, close, emit.
  destruct (Hm w) as (evs & Ht & Hfree). destruct (m w) as [r w1].
  cbn [snd trace] in *. exists (evs ++ [Close c]).
  split; [by rewrite Ht, app_assoc|]. split.
  - apply leak_free_app; [done|].
    apply leak_free_no_connect. by repeat constructor.
  - apply elem_of_app. right. by left.
Qed.

(** A connection obtained from [get_connection] and closed by what
    follows is not leaked. *)
Lemma closes_with_connection env secret_dict {B} (body : option nat → M B) :
  keeps (closes env) (body None) →
  (∀ c, keeps (closing env c) (body (Some c))) →
  keeps (closes env) (get_connection env secret_dict ≫= body).
Proof.
  intros Hnone Hsome w. unfold mbind, M_bind. rewrite get_connection_run.
  destruct (port_of env secret_dict) as [port|e]; [|reflexivity].
  destruct (secret_dict !! "host") as [host|]; [|reflexivity].
  destruct (secret_dict !! "username") as [user|]; [|reflexivity].
  destruct (secret_dict !! "password") as [passwd|]; [|reflexivity].
  cbn zeta.
  set (args := {| ca_host := host; ca_user := user; ca_passwd := passwd;
                  ca_port := port; ca_db := secret_dict !! "dbname";
                  ca_connect_timeout := 5 |}).
  destruct (db_connect env (trace w) args) as [[]|e] eqn:Hanswer;
    cbn [login_outcome].
  - destruct (Hsome (length (trace w)) (after w [Connect args]))
      as (evs & Ht & Hfree & Hclose).
    exists (Connect args :: evs). cbn [after trace] in Ht, Hfree.
    split; [by rewrite Ht, <- app_assoc|].
    by apply leak_free_cons_connect.
  - assert (closes env w (after w [Connect args])) as Hfail.
    { exists [Connect args]. split; [done|].
      apply leak_free_cons_connect.
      - by apply leak_free_no_connect.
      - by rewrite Hanswer. }
    destruct e; try exact Hfail.
    destruct (Hnone (after w [Connect args])) as (evs & Ht & Hfree).
    exists (Connect args :: evs). cbn [after trace] in Ht, Hfree.
    split; [by rewrite Ht, <- app_assoc|].
    apply leak_free_cons_connect; [done | by rewrite Hanswer].
Qed.

Lemma closes_emit env e : is_connect e = false → keeps (closes env) (emit e).
Proof.
  intros He. apply closes_of_quiet, quiet_emit. exact He.
Qed.

Ltac closes_step :=
  first
    [ apply closes_with_connection; [|intros ?]
    | apply closing_close_then
    | apply closing_close
    | apply closing_try_finally
    | apply closes_of_quiet, quiet_get_secret_dict; by intros []
    | apply closes_of_quiet, quiet_describe_secret; by intros []
    | apply closes_emit; reflexivity
    | keeps_step
    | match goal with
      | H : Some _ = Some _ |- _ => injection H as <-
      | H : None = Some _ |- _ => discriminate H
      | H : match ?e with _ => _ end = Some _ |- _ =>
          destruct e; try discriminate H
      end ].

Lemma closes_db_calls env :
  (∀ c sql args, keeps (closes env) (execute env c sql args))
  ∧ (∀ c, keeps (closes env) (fetchall env c))
  ∧ (∀ c, keeps (closes env) (commit env c)).
Proof.
  unfold execute, fetchall, commit.
  repeat split; intros; apply closes_of_quiet;
    repeat quiet_step; done.
Qed.

Lemma closes_set_secret env arn token : keeps (closes env) (set_secret env arn token).
Proof.
  destruct (closes_db_calls env) as (He & Hf & Hc).
  unfold set_secret, replicate_grants, replicate_grant,
    is_rds_replica_database.
  repeat first [apply He | apply Hf | apply Hc | closes_step].
Qed.

Lemma closes_test_secret env arn token :
  keeps (closes env) (test_secret env arn token).
Proof.
  destruct (closes_db_calls env) as (He & Hf & Hc).
  unfold test_secret.
  repeat first [apply He | apply Hf | apply Hc | closes_step].
Qed.

(** X15. No connection is leaked. For every request and every behaviour
    of the collaborators, each connection that setSecret, testSecret or
    the handler as a whole opened with a successful login is closed later
    in the same run, on the paths that raise as on those that return. *)
Theorem connections_are_closed env arn token w :
  closes env w (set_secret env arn token w).2
  ∧ closes env w (test_secret env arn token w).2
  ∧ ∀ event, closes env w (lambda_handler env event w).2.
Proof.
  split; [apply closes_set_secret|]. split; [apply closes_test_secret|].
  intros event. revert w.
  change (keeps (closes env) (lambda_handler env event)).
  unfold lambda_handler.
  repeat first
    [ apply closes_set_secret | apply closes_test_secret
    | apply closes_of_emits, emits_create_secret; by intros []
    | apply closes_of_emits, emits_finish_secret; by intros []
    | closes_step ].
Qed.

Lemma leak_free_detects env t0 args :
  db_connect env t0 args = Ok tt → ¬ leak_free env t0 [Connect args].
Proof.
  intros Hok Hfree. destruct (Hfree 0 args eq_refl) as (j & Hj & Hclose).
  - by rewrite app_nil_r.
  - by destruct j as [|[|j]].
Qed.

(** * Running a step again *)

Lemma relabel_keys f vs : (relabel f vs).*1 = vs.*1.
Proof. unfold relabel. induction vs as [|[k l] vs IH]; simpl; by f_equal. Qed.

Lemma move_label_keys stage to from vs :
  (move_label stage to from vs).*1 = vs.*1.
Proof.
  unfold move_label. case_decide; by rewrite ?relabel_keys.
Qed.

Lemma dict_get_move_label_target token old vs stages :
  old ≠ token → dict_get token vs = Some stages →
  ∃ l, dict_get token (move_label "AWSCURRENT" token old vs) = Some l
       ∧ "AWSCURRENT" ∈ l.
Proof.
  intros Hne Htok. unfold move_label. rewrite decide_True by done.
  rewrite relabel_relabel, dict_get_relabel, Htok. simpl.
  eexists. split; [done|]. repeat case_decide; try congruence.
  apply elem_of_remove_label. split; [done|].
  apply elem_of_add_label. by left.
Qed.

Lemma finish_secret_run arn token w sec :
  secrets w !! arn = Some sec →
  finish_secret arn token w
  = match finish_loop token (VersionIdsToStages sec) with
    | Returned => (Ok tt, after w [DescribeSecret arn])
    | Fell current_version =>
        update_secret_version_stage arn "AWSCURRENT" token current_version
          (after w [DescribeSecret arn])
    end.
Proof.
  intros Hsec. unfold finish_secret.
  rewrite (bind_ok _ _ _ _ _ (describe_secret_run _ _ _ Hsec)). simpl.
  by destruct (finish_loop _ _).
Qed.

(** With the token's version the one CURRENT version, finishSecret only
    reads. *)
Lemma finish_secret_current arn token w sec stages :
  secrets w !! arn = Some sec →
  NoDup (VersionIdsToStages sec).*1 →
  count_stage "AWSCURRENT" (VersionIdsToStages sec) = 1 →
  dict_get token (VersionIdsToStages sec) = Some stages →
  "AWSCURRENT" ∈ stages →
  finish_secret arn token w = (Ok tt, after w [DescribeSecret arn]).
Proof.
  intros Hsec Hnd Hone Htok Hst. rewrite (finish_secret_run _ _ _ _ Hsec).
  pose proof (dict_get_elem_of _ _ _ Htok) as Htok_in.
  pose proof (finish_loop_spec token (VersionIdsToStages sec)) as Hloop.
  destruct (finish_loop token (VersionIdsToStages sec)) as [|[old|]].
  - done.
  - destruct Hloop as (Hne & l & Hin & Hl). destruct Hne.
    by injection (count_stage_one_unique _ _ (old, l) (token, stages)
                    Hone Hin Htok_in Hl Hst).
  - rewrite Hloop in Hone. discriminate Hone.
Qed.

(** Otherwise it moves the label from the one CURRENT version. *)
Lemma finish_secret_moves arn token w sec stages :
  secrets w !! arn = Some sec →
  NoDup (VersionIdsToStages sec).*1 →
  count_stage "AWSCURRENT" (VersionIdsToStages sec) = 1 →
  dict_get token (VersionIdsToStages sec) = Some stages →
  "AWSCURRENT" ∉ stages →
  ∃ old,
    old ≠ token
    ∧ (∀ v, v ∈ VersionIdsToStages sec → "AWSCURRENT" ∈ v.2 → v.1 = old)
    ∧ finish_secret arn token w
      = (Ok tt,
         {| secrets :=
              <[arn := {| RotationEnabled := RotationEnabled sec;
                          VersionIdsToStages :=
                            move_label "AWSCURRENT" token old
                              (VersionIdsToStages sec);
                          SecretStrings := SecretStrings sec |}]> (secrets w);
            trace := trace w
                     ++ [DescribeSecret arn;
                         UpdateSecretVersionStage arn "AWSCURRENT" token
                           (Some old)] |}).
Proof.
  intros Hsec Hnd Hone Htok Hnot. rewrite (finish_secret_run _ _ _ _ Hsec).
  pose proof (finish_loop_spec token (VersionIdsToStages sec)) as Hloop.
  destruct (finish_loop token (VersionIdsToStages sec)) as [|[old|]].
  - destruct Hloop as (l & Hin & Hl).
    rewrite (elem_of_dict_get _ _ _ Hnd Hin) in Htok. by injection Htok as ->.
  - destruct Hloop as (Hne & l & Hin & Hl).
    exists old. split; [done|]. split.
    { intros v Hv Hst.
      by rewrite (count_stage_one_unique _ _ v (old, l) Hone Hv Hin Hst Hl). }
    unfold update_secret_version_stage. run. simpl.
    rewrite Hsec, Htok, (elem_of_dict_get _ _ _ Hnd Hin).
    rewrite (proj2 (contains_spec _ _) Hl). by rewrite <- app_assoc.
  - rewrite Hloop in Hone. discriminate Hone.
Qed.

(** The state finishSecret leaves: the token's version is the one CURRENT
    version. *)
Lemma finish_secret_promoted arn token w sec stages :
  secrets w !! arn = Some sec →
  NoDup (VersionIdsToStages sec).*1 →
  count_stage "AWSCURRENT" (VersionIdsToStages sec) = 1 →
  dict_get token (VersionIdsToStages sec) = Some stages →
  ∃ w1 sec1 stages1,
    finish_secret arn token w = (Ok tt, w1)
    ∧ secrets w1 !! arn = Some sec1
    ∧ RotationEnabled sec1 = RotationEnabled sec
    ∧ NoDup (VersionIdsToStages sec1).*1
    ∧ count_stage "AWSCURRENT" (VersionIdsToStages sec1) = 1
    ∧ dict_get token (VersionIdsToStages sec1) = Some stages1
    ∧ "AWSCURRENT" ∈ stages1.
Proof.
  intros Hsec Hnd Hone Htok.
  destruct (decide ("AWSCURRENT" ∈ stages)) as [Hst|Hst].
  - exists (after w [DescribeSecret arn]), sec, stages.
    split; [by eapply finish_secret_current|]. done.
  - destruct (finish_secret_moves _ _ _ _ _ Hsec Hnd Hone Htok Hst)
      as (old & Hne & Honly & Hrun).
    destruct (dict_get_move_label_target _ _ _ _ Hne Htok) as (l & Hl & Hin).
    eexists _, _, l. split; [exact Hrun|]. cbn [secrets].
    rewrite lookup_insert_eq. split; [done|]. cbn [RotationEnabled
      VersionIdsToStages]. split; [done|].
    split; [by rewrite move_label_keys|].
    split; [|done]. apply count_stage_move_label; eauto.
Qed.

(** X16. finishSecret is idempotent: on a store that holds the token's
    version and has AWSCURRENT on exactly one version, it returns, and a
    second run after it makes the one read of the metadata and no label
    move. *)
Theorem finish_secret_twice arn token w sec stages :
  secrets w !! arn = Some sec →
  NoDup (VersionIdsToStages sec).*1 →
  count_stage "AWSCURRENT" (VersionIdsToStages sec) = 1 →
  dict_get token (VersionIdsToStages sec) = Some stages →
  ∃ w1,
    finish_secret arn token w = (Ok tt, w1)
    ∧ finish_secret arn token w1 = (Ok tt, after w1 [DescribeSecret arn]).
Proof.
  intros Hsec Hnd Hone Htok.
  destruct (finish_secret_promoted _ _ _ _ _ Hsec Hnd Hone Htok)
    as (w1 & sec1 & stages1 & Hrun & Hsec1 & _ & Hnd1 & Hone1 & Htok1 & Hst1).
  exists w1. split; [done|]. by eapply finish_secret_current.
Qed.

Lemma finish_secret_twice_witness :
  ∃ w1,
    finish_secret "arn:app" "v2" (Scenario.staged_world Scenario.master_dict)
    = (Ok tt, w1)
    ∧ finish_secret "arn:app" "v2" w1 = (Ok tt, after w1 [DescribeSecret "arn:app"]).
Proof.
  apply (finish_secret_twice "arn:app" "v2"
           (Scenario.staged_world Scenario.master_dict) _ ["AWSPENDING"]
           eq_refl).
  - simpl. repeat constructor; by apply (bool_decide_unpack _).
  - reflexivity.
  - reflexivity.
Defined.

(** X17. Once finishSecret has returned for a token, the rotation is over
    for it: with rotation not disabled and the endpoint configured, the
    handler called again with that token returns success after its one
    read of the metadata, for every step, createSecret, setSecret and
    testSecret included. *)
Theorem finish_secret_then_handler_returns env arn token w sec stages :
  is_Some (environ env !! "SECRETS_MANAGER_ENDPOINT") →
  secrets w !! arn = Some sec →
  RotationEnabled sec ≠ Some false →
  NoDup (VersionIdsToStages sec).*1 →
  count_stage "AWSCURRENT" (VersionIdsToStages sec) = 1 →
  dict_get token (VersionIdsToStages sec) = Some stages →
  ∃ w1,
    finish_secret arn token w = (Ok tt, w1)
    ∧ ∀ step,
        lambda_handler env
          {| SecretId := arn; ClientRequestToken := token; Step := step |} w1
        = (Ok tt, after w1 [DescribeSecret arn]).
Proof.
  intros Hend Hsec Hen Hnd Hone Htok.
  destruct (finish_secret_promoted _ _ _ _ _ Hsec Hnd Hone Htok)
    as (w1 & sec1 & stages1 & Hrun & Hsec1 & Hen1 & _ & _ & Htok1 & Hst1).
  exists w1. split; [done|]. intros step.
  rewrite (lambda_handler_after_describe env
             {| SecretId := arn; ClientRequestToken := token; Step := step |}
             w1 sec1 Hend Hsec1).
  simpl. rewrite Htok1, (proj2 (contains_spec _ _) Hst1), Hen1.
  by destruct (RotationEnabled sec) as [[]|].
Qed.

Lemma finish_secret_then_handler_returns_witness :
  ∃ w1,
    finish_secret "arn:app" "v2" (Scenario.staged_world Scenario.master_dict)
    = (Ok tt, w1)
    ∧ lambda_handler (Scenario.env (λ _, false) (Ok []))
        (Scenario.request "setSecret") w1
      = (Ok tt, after w1 [DescribeSecret "arn:app"]).
Proof.
  destruct (finish_secret_then_handler_returns
              (Scenario.env (λ _, false) (Ok [])) "arn:app" "v2"
              (Scenario.staged_world Scenario.master_dict) _ ["AWSPENDING"]
              (mk_is_Some _ _ eq_refl) eq_refl) as (w1 & Hrun & Hnoop).
  - discriminate.
  - simpl. repeat constructor; by apply (bool_decide_unpack _).
  - reflexivity.
  - reflexivity.
  - exists w1. split; [exact Hrun | apply Hnoop].
Defined.

Lemma contains_add_label_ne stage other l :
  stage ≠ other → contains stage (add_label other l) = contains stage l.
Proof.
  intros Hne. apply eq_true_iff_eq.
  rewrite !contains_spec, elem_of_add_label. intuition congruence.
Qed.

Lemma find_stage_dict_upd stage other token vs :
  stage ≠ other →
  find_stage stage (dict_upd token (add_label other) [] vs)
  = find_stage stage vs.
Proof.
  intros Hne. induction vs as [|[k l] vs IH]; simpl.
  - rewrite contains_add_label_ne by done. done.
  - destruct (decide (k = token)) as [->|_]; simpl.
    + by rewrite contains_add_label_ne.
    + by rewrite IH.
Qed.

(** What a successful fetch by stage alone found in the store. *)
Lemma get_secret_value_by_stage arn stage w p w' sec :
  secrets w !! arn = Some sec →
  get_secret_value arn None stage w = (Ok p, w') →
  ∃ v, find_stage stage (VersionIdsToStages sec) = Some v
       ∧ SecretStrings sec !! v = Some p.
Proof.
  intros Hsec. unfold get_secret_value. run. simpl. rewrite Hsec.
  destruct (find_stage stage (VersionIdsToStages sec)) as [v|]; [|done].
  destruct (SecretStrings sec !! v) as [p'|] eqn:Hp; [|done].
  intros [= <- _]. by exists v.
Qed.

Lemma get_secret_dict_inv arn stage token w d w' :
  get_secret_dict arn stage token w = (Ok d, w') →
  valid_secret d
  ∧ get_secret_value arn (if truthy token then token else None) stage w
    = (Ok (JsonObject d), w').
Proof.
  rewrite get_secret_dict_run.
  destruct (get_secret_value _ _ _ _) as [[[|d']|e] w1] eqn:Hget; try done.
  case_bool_decide as Heng; [|done].
  destruct (d' !! "host") eqn:Hh; [|done].
  destruct (d' !! "username") eqn:Hu; [|done].
  destruct (d' !! "password") eqn:Hp; [|done].
  intros [= <- <-]. split; [|done].
  unfold valid_secret. rewrite Hh, Hu, Hp. eauto.
Qed.

Lemma get_secret_dict_valid arn stage token w d w' :
  valid_secret d →
  get_secret_value arn (if truthy token then token else None) stage w
  = (Ok (JsonObject d), w') →
  get_secret_dict arn stage token w = (Ok d, w').
Proof.
  intros (Heng & [? Hh] & [? Hu] & [? Hp]) Hget.
  rewrite get_secret_dict_run, Hget, Hh, Hu, Hp.
  by rewrite bool_decide_eq_true_2.
Qed.

(** The world createSecret leaves when it stores a new PENDING record. *)
Lemma create_secret_stores env arn token w current_dict w1 w2 u alt passwd sec :
  secrets w !! arn = Some sec →
  get_secret_dict arn "AWSCURRENT" None w = (Ok current_dict, w1) →
  get_secret_dict arn "AWSPENDING" (Some token) w1
  = (Raise ResourceNotFoundException, w2) →
  current_dict !! "username" = Some (JStr u) →
  get_alt_username u = Ok alt →
  random_password env (trace w2) (exclude_characters env) = Ok passwd →
  let stored :=
    <["password" := JStr passwd]> (<["username" := JStr alt]> current_dict) in
  create_secret env arn token w
  = (Ok tt,
     {| secrets :=
          <[arn := {| RotationEnabled := RotationEnabled sec;
                      VersionIdsToStages :=
                        dict_upd token (add_label "AWSPENDING") []
                          (VersionIdsToStages sec);
                      SecretStrings :=
                        <[token := JsonObject stored]> (SecretStrings sec) |}]>
            (secrets w);
        trace := trace w2
                 ++ [GetRandomPassword (exclude_characters env);
                     PutSecretValue arn token (JsonObject stored)
                       ["AWSPENDING"]] |}).
Proof.
  intros Hsec Hcur Hpend Hu Halt Hpw stored.
  assert (secrets w2 = secrets w) as Hs2.
  { destruct (keeps_run _ _ _ _ _
                (quiet_get_secret_dict _ (λ e H, H) _ _ _) Hcur) as [E1 _].
    destruct (keeps_run _ _ _ _ _
                (quiet_get_secret_dict _ (λ e H, H) _ _ _) Hpend) as [E2 _].
    congruence. }
  unfold create_secret. rewrite (bind_ok _ _ _ _ _ Hcur).
  unfold try_except. rewrite Hpend.
  unfold get_random_password, put_secret_value. run.
  rewrite Hu, Halt, Hpw. simpl. rewrite Hs2, Hsec.
  unfold json_dumps. fold stored. by rewrite <- app_assoc.
Qed.

(** X18. createSecret is idempotent: after a run that stored a new PENDING
    record for a token that is not empty and is not the CURRENT version, a
    second run for that token finds the record, reads the store twice and
    writes nothing. *)
Theorem create_secret_twice env arn token w current_dict w1 w2 u alt passwd
    sec :
  token ≠ "" →
  secrets w !! arn = Some sec →
  find_stage "AWSCURRENT" (VersionIdsToStages sec) ≠ Some token →
  get_secret_dict arn "AWSCURRENT" None w = (Ok current_dict, w1) →
  get_secret_dict arn "AWSPENDING" (Some token) w1
  = (Raise ResourceNotFoundException, w2) →
  current_dict !! "username" = Some (JStr u) →
  get_alt_username u = Ok alt →
  random_password env (trace w2) (exclude_characters env) = Ok passwd →
  ∃ w',
    create_secret env arn token w = (Ok tt, w')
    ∧ create_secret env arn token w'
      = (Ok tt,
         after w' [GetSecretValue arn None "AWSCURRENT";
                   GetSecretValue arn (Some token) "AWSPENDING"]).
Proof.
  intros Htoken Hsec Hnot Hcur Hpend Hu Halt Hpw.
  eexists. split.
  { exact (create_secret_stores _ _ _ _ _ _ _ _ _ _ _
             Hsec Hcur Hpend Hu Halt Hpw). }
  destruct (get_secret_dict_inv _ _ _ _ _ _ Hcur) as [Hvalid Hfetch].
  cbn [truthy] in Hfetch.
  destruct (get_secret_value_by_stage _ _ _ _ _ _ Hsec Hfetch)
    as (v & Hv & Hpayload).
  assert (v ≠ token) as Hvt by congruence.
  set (stored := <["password" := JStr passwd]>
                   (<["username" := JStr alt]> current_dict)).
  set (sec' := {| RotationEnabled := RotationEnabled sec;
                  VersionIdsToStages :=
                    dict_upd token (add_label "AWSPENDING") []
                      (VersionIdsToStages sec);
                  SecretStrings :=
                    <[token := JsonObject stored]> (SecretStrings sec) |}).
  set (w' := {| secrets := <[arn := sec']> (secrets w); trace := _ |}).
  assert (get_secret_dict arn "AWSCURRENT" None w'
          = (Ok current_dict, after w' [GetSecretValue arn None "AWSCURRENT"]))
    as Hcur'.
  { apply get_secret_dict_valid; [done|]. cbn [truthy].
    unfold get_secret_value. run. simpl. rewrite lookup_insert_eq.
    cbn [VersionIdsToStages SecretStrings sec'].
    rewrite find_stage_dict_upd by done. rewrite Hv.
    rewrite lookup_insert_ne by done. by rewrite Hpayload. }
  assert (valid_secret stored) as Hstored.
  { destruct Hvalid as (Heng & Hh & _ & _). unfold valid_secret, stored.
    rewrite !(lookup_insert_ne _ _ "engine"), !(lookup_insert_ne _ _ "host")
      by done.
    rewrite lookup_insert_eq, lookup_insert_ne, lookup_insert_eq by done.
    eauto. }
  assert (get_secret_dict arn "AWSPENDING" (Some token)
            (after w' [GetSecretValue arn None "AWSCURRENT"])
          = (Ok stored,
             after w' [GetSecretValue arn None "AWSCURRENT";
                       GetSecretValue arn (Some token) "AWSPENDING"]))
    as Hpend'.
  { apply get_secret_dict_valid; [done|].
    assert (truthy (Some token) = true) as ->.
    { simpl. apply negb_true_iff. by apply String.eqb_neq. }
    unfold get_secret_value. run. simpl. rewrite lookup_insert_eq.
    cbn [VersionIdsToStages SecretStrings sec'].
    rewrite dict_get_dict_upd.
    rewrite (proj2 (contains_spec _ _)) by (apply elem_of_add_label; by left).
    rewrite lookup_insert_eq. unfold after. simpl.
    by rewrite <- app_assoc. }
  unfold create_secret. rewrite (bind_ok _ _ _ _ _ Hcur').
  unfold try_except. by rewrite Hpend'.
Qed.

Lemma create_secret_twice_witness :
  ∃ w',
    create_secret (Scenario.env (λ _, false) (Ok [])) "arn:app" "v2"
      (Scenario.world Scenario.current_dict Scenario.master_dict)
    = (Ok tt, w')
    ∧ create_secret (Scenario.env (λ _, false) (Ok [])) "arn:app" "v2" w'
      = (Ok tt,
         after w' [GetSecretValue "arn:app" None "AWSCURRENT";
                   GetSecretValue "arn:app" (Some "v2") "AWSPENDING"]).
Proof.
  pose (w := Scenario.world Scenario.current_dict Scenario.master_dict).
  pose (w1 := after w [GetSecretValue "arn:app" None "AWSCURRENT"]).
  pose (w2 := after w1 [GetSecretValue "arn:app" (Some "v2") "AWSPENDING"]).
  refine (create_secret_twice (Scenario.env (λ _, false) (Ok []))
            "arn:app" "v2" w Scenario.current_dict w1 w2 "app_user"
            "app_user_clone" "n3w-Passw0rd"
            (Scenario.app_secret Scenario.current_dict)
            _ eq_refl _ eq_refl eq_refl eq_refl eq_refl eq_refl);
    discriminate.
Defined.
